(** * DolphinQt2 game list widget: a shallow embedding of GameList.cpp

    The widget is a QStackedWidget with three pages (a table view, an icon
    list view and an empty-state label) over one catalog model.  The
    embedding keeps the names of the C++ members and slots.  Calls that
    leave the widget (dialogs, the disc codec, the filesystem) are recorded
    in a trace of effects; what they return is an input of the slot. *)

From Stdlib Require Import ZArith Bool List Lia.
From Stdlib Require Import Floats.SpecFloat.
From stdpp Require Import base option list strings gmap.

Open Scope string_scope.
Open Scope list_scope.
Open Scope Z_scope.

(** ** Toolkit and domain types *)

Definition QString := string.

Definition isEmpty (s : QString) : bool :=
  match s with EmptyString => true | String _ _ => false end.

(** [DiscIO::Platform], declared in DiscIO/Enums.h.  GameList.cpp names the
    first three enumerators; the other two complete the declaration. *)
Inductive Platform :=
| GAMECUBE_DISC | WII_DISC | WII_WAD | ELF_DOL | NUMBER_OF_PLATFORMS.

(** [DiscIO::BlobType], declared in DiscIO/Blob.h.  GameList.cpp names GCZ
    and PLAIN and tests for PLAIN once the test for GCZ has failed; the
    other enumerators are the remaining containers a blob can come in. *)
Inductive BlobType :=
| PLAIN | DRIVE | DIRECTORY | GCZ | CISO | WBFS | TGC.

#[global] Instance Platform_eq_dec : EqDecision Platform.
Proof. solve_decision. Defined.

#[global] Instance BlobType_eq_dec : EqDecision BlobType.
Proof. solve_decision. Defined.

(** What [GameFile(path)] answers for one file on disk. *)
Record GameFile := {
  GetPlatformID : Platform;
  GetBlobType : BlobType;
  IsInstalled : bool;
  GetGameID : QString;
  GetWiiFSPath : QString
}.

(** The files behind the catalog: [GameFile(path)] re-reads the metadata
    each time a slot constructs it. *)
Definition Disk := QString -> GameFile.

(** The three pages added to the stacked widget. *)
Inductive Widget := m_table | m_list | m_empty.

#[global] Instance Widget_eq_dec : EqDecision Widget.
Proof. solve_decision. Defined.

Record QModelIndex := { row : Z; column : Z }.

(** [QModelIndex()], the invalid index. *)
Definition invalid_index : QModelIndex := {| row := -1; column := -1 |}.

(** A sort/filter proxy, as the source rows it shows, in display order. *)
Abbreviation QSortFilterProxyModel := (list Z).

(** Indexing a [QList] with a C++ [int]; [None] outside the list, where the
    C++ container asserts. *)
Definition at_index {A} (l : list A) (i : Z) : option A :=
  if i <? 0 then None else l !! Z.to_nat i.

Definition mapToSource (proxy : QSortFilterProxyModel) (idx : QModelIndex)
  : QModelIndex :=
  match at_index proxy (row idx) with
  | Some r => {| row := r; column := column idx |}
  | None => invalid_index
  end.

(** ** The catalog model *)

Record GameListModel := { m_games : list QString }.

(** Modelled from the spec: GameListModel::rowCount is declared outside
    GameList.cpp; the catalog's [rowCount()] is the number of games. *)
Definition rowCount (m : GameListModel) : Z := Z.of_nat (length (m_games m)).

(** Modelled from the spec: GameListModel::GetPath is declared outside
    GameList.cpp; [pathAt(row)] is the path of the game at that row. *)
Definition GetPath (m : GameListModel) (index : Z) : option QString :=
  at_index (m_games m) index.

(** ** The widget *)

Record GameList := {
  m_model : GameListModel;
  m_table_proxy : QSortFilterProxyModel;
  m_list_proxy : QSortFilterProxyModel;
  (** [m_table->selectionModel()->selectedIndexes()] *)
  table_selection : list QModelIndex;
  (** [m_list->selectionModel()->selectedIndexes()] *)
  list_selection : list QModelIndex;
  m_prefer_table : bool;
  currentWidget : Widget
}.

Definition setCurrentWidget (page : Widget) (w : GameList) : GameList :=
  {| m_model := m_model w;
     m_table_proxy := m_table_proxy w;
     m_list_proxy := m_list_proxy w;
     table_selection := table_selection w;
     list_selection := list_selection w;
     m_prefer_table := m_prefer_table w;
     currentWidget := page |}.

Definition ConsiderViewChange (w : GameList) : GameList :=
  if 0 <? rowCount (m_model w) then
    if m_prefer_table w then setCurrentWidget m_table w
    else setCurrentWidget m_list w
  else setCurrentWidget m_empty w.

(** The persisted preference lives in the settings store; the widget keeps
    a copy in [m_prefer_table]. *)
Record Settings := { PreferredView : bool }.

Definition SetPreferredView (table : bool) (w : GameList) (s : Settings)
  : GameList * Settings :=
  let w1 := {| m_model := m_model w;
               m_table_proxy := m_table_proxy w;
               m_list_proxy := m_list_proxy w;
               table_selection := table_selection w;
               list_selection := list_selection w;
               m_prefer_table := table;
               currentWidget := currentWidget w |} in
  (ConsiderViewChange w1, {| PreferredView := table |}).

(** The constructor: a fresh model, both proxies on it, nothing selected,
    the preference read from the settings, then [ConsiderViewChange]. *)
Definition GameList_new (s : Settings) : GameList :=
  ConsiderViewChange
    {| m_model := {| m_games := [] |};
       m_table_proxy := [];
       m_list_proxy := [];
       table_selection := [];
       list_selection := [];
       m_prefer_table := PreferredView s;
       currentWidget := m_table |}.

(** The selection model has a selection when its list of selected indexes
    is not empty.  [None] when the row handed to [GetPath] is outside the
    catalog. *)
Definition GetSelectedGame (w : GameList) : option QString :=
  let '(selectedIndexes, proxy) :=
    if decide (currentWidget w = m_table)
    then (table_selection w, m_table_proxy w)
    else (list_selection w, m_list_proxy w) in
  match selectedIndexes with
  | first :: _ => GetPath (m_model w) (row (mapToSource proxy first))
  | [] => Some EmptyString
  end.

(** ** Effects

    What a slot does outside the widget: the dialogs it runs, the menu it
    pops up, the external calls it makes, in program order. *)

Inductive Icon := NoIcon | Information | Warning | Critical.

Inductive StandardButton :=
| NoButton | Ok | Cancel | Yes | No | Abort | Retry | Ignore.

#[global] Instance StandardButton_eq_dec : EqDecision StandardButton.
Proof. solve_decision. Defined.

Record QMessageBox := {
  icon : Icon;
  windowTitle : string;
  text : string;
  informativeText : string;
  standardButtons : list StandardButton
}.

(** The slots a menu entry can be wired to. *)
Inductive Slot :=
| SLOT_OpenProperties | SLOT_OpenWiki | SLOT_SetDefaultISO
| SLOT_DecompressISO | SLOT_CompressISO
| SLOT_InstallWAD | SLOT_UninstallWAD
| SLOT_OpenSaveFolder | SLOT_ExportWiiSave
| SLOT_OpenContainingFolder | SLOT_DeleteFile.

#[global] Instance Slot_eq_dec : EqDecision Slot.
Proof. solve_decision. Defined.

(** The lambdas connected to the emulation signals. *)
Inductive Reaction :=
| setEnabled_to (b : bool)
| setEnabled_IsInstalled (game : QString).

Record QAction := {
  action_text : string;
  triggered : Slot;
  enabled : bool;
  on_EmulationStarted : list Reaction;
  on_EmulationStopped : list Reaction
}.

Inductive MenuEntry := Action (a : QAction) | Separator.

Abbreviation QMenu := (list MenuEntry).

(** [new QAction(text, menu)] with [triggered] connected to [slot]; also
    what [menu->addAction(text, this, SLOT(slot()))] creates. *)
Definition new_QAction (label : string) (slot : Slot) : QAction :=
  {| action_text := label; triggered := slot; enabled := true;
     on_EmulationStarted := []; on_EmulationStopped := [] |}.

Definition setEnabled (b : bool) (a : QAction) : QAction :=
  {| action_text := action_text a; triggered := triggered a; enabled := b;
     on_EmulationStarted := on_EmulationStarted a;
     on_EmulationStopped := on_EmulationStopped a |}.

Definition connect_EmulationStarted (r : Reaction) (a : QAction) : QAction :=
  {| action_text := action_text a; triggered := triggered a;
     enabled := enabled a;
     on_EmulationStarted := on_EmulationStarted a ++ [r];
     on_EmulationStopped := on_EmulationStopped a |}.

Definition connect_EmulationStopped (r : Reaction) (a : QAction) : QAction :=
  {| action_text := action_text a; triggered := triggered a;
     enabled := enabled a;
     on_EmulationStarted := on_EmulationStarted a;
     on_EmulationStopped := on_EmulationStopped a ++ [r] |}.

Definition addAction (label : string) (slot : Slot) : MenuEntry :=
  Action (new_QAction label slot).

Inductive Effect :=
| QMenu_exec (menu : QMenu)
| QMessageBox_exec (box : QMessageBox)
| QErrorMessage_showMessage (message : string)
| QFileDialog_getSaveFileName (caption : string) (dir_of : QString)
    (file : QString) (filter : string)
| DiscIO_DecompressBlobToFile (infile outfile : QString)
| DiscIO_CompressFileToBlob (infile outfile : QString)
    (sub_type block_size : Z)
| File_Delete (filename : QString).

(** ** The context menu *)

Definition wad_entries (running : bool) (game : QString) : list MenuEntry :=
  let in_loop (a : QAction) :=
    setEnabled (negb running)
      (connect_EmulationStarted (setEnabled_to false) a) in
  let wad_install_action :=
    connect_EmulationStopped (setEnabled_to true)
      (in_loop (new_QAction "Install to the NAND" SLOT_InstallWAD)) in
  let wad_uninstall_action :=
    connect_EmulationStopped (setEnabled_IsInstalled game)
      (in_loop (new_QAction "Uninstall from the NAND" SLOT_UninstallWAD)) in
  [Action wad_install_action; Action wad_uninstall_action; Separator].

Definition disc_entries (blob_type : BlobType) : list MenuEntry :=
  [addAction "Default ISO" SLOT_SetDefaultISO]
  ++ (if decide (blob_type = GCZ)
      then [addAction "Decompress ISO" SLOT_DecompressISO]
      else if decide (blob_type = PLAIN)
      then [addAction "Compress ISO" SLOT_CompressISO]
      else [])
  ++ [Separator].

Definition build_menu (disk : Disk) (running : bool) (game : QString)
  : QMenu :=
  let platform := GetPlatformID (disk game) in
  [addAction "Properties" SLOT_OpenProperties;
   addAction "Wiki" SLOT_OpenWiki;
   Separator]
  ++ (if decide (platform = GAMECUBE_DISC \/ platform = WII_DISC)
      then disc_entries (GetBlobType (disk game))
      else [])
  ++ (if decide (platform = WII_WAD)
      then wad_entries running game
      else [])
  ++ (if decide (platform = WII_WAD \/ platform = WII_DISC)
      then [addAction "Open Wii save folder" SLOT_OpenSaveFolder;
            addAction "Export Wii save (Experimental)" SLOT_ExportWiiSave;
            Separator]
      else [])
  ++ [addAction "Open Containing Folder" SLOT_OpenContainingFolder;
      addAction "Remove File" SLOT_DeleteFile].

(** [running] is what [Core::IsRunning()] answers while the menu is built. *)
Definition ShowContextMenu (w : GameList) (disk : Disk) (running : bool)
  : option (list Effect) :=
  game ← GetSelectedGame w;
  if isEmpty game then Some []
  else Some [QMenu_exec (build_menu disk running game)].

(** Delivering the two emulation signals to the actions of a menu. *)
Definition react (disk : Disk) (r : Reaction) (a : QAction) : QAction :=
  match r with
  | setEnabled_to b => setEnabled b a
  | setEnabled_IsInstalled game => setEnabled (IsInstalled (disk game)) a
  end.

Definition deliver (disk : Disk) (rs : list Reaction) (a : QAction)
  : QAction :=
  fold_left (fun a r => react disk r a) rs a.

Definition emit_EmulationStarted (disk : Disk) (menu : QMenu) : QMenu :=
  map (fun e => match e with
                | Action a => Action (deliver disk (on_EmulationStarted a) a)
                | Separator => Separator
                end) menu.

Definition emit_EmulationStopped (disk : Disk) (menu : QMenu) : QMenu :=
  map (fun e => match e with
                | Action a => Action (deliver disk (on_EmulationStopped a) a)
                | Separator => Separator
                end) menu.

(** The enabled flag of the first entry wired to [slot]. *)
Fixpoint entry_enabled (slot : Slot) (menu : QMenu) : option bool :=
  match menu with
  | [] => None
  | Action a :: rest =>
      if decide (triggered a = slot) then Some (enabled a)
      else entry_enabled slot rest
  | Separator :: rest => entry_enabled slot rest
  end.

(** ** The progress dialog and the compression callback *)

(** C++ [float] is IEEE binary32: 24 bits of precision, exponents below 128. *)
Definition float := spec_float.
Definition float_prec : Z := 24.
Definition float_emax : Z := 128.

Definition float_mul : float -> float -> float := SFmul float_prec float_emax.

(** Integral-to-floating conversion, round to nearest even. *)
Definition float_of_int (n : Z) : float :=
  binary_normalize float_prec float_emax n 0 false.

Definition INT_MIN : Z := - 2 ^ 31.
Definition INT_MAX : Z := 2 ^ 31 - 1.

(** Floating-to-integral conversion: the fractional part is discarded;
    undefined when the truncated value does not fit an [int]. *)
Definition float_to_int (f : float) : option Z :=
  match f with
  | S754_zero _ => Some 0
  | S754_finite s m e =>
      let magnitude :=
        if 0 <=? e then Z.pos m * 2 ^ e else Z.pos m / 2 ^ (- e) in
      let v := if s then - magnitude else magnitude in
      if (INT_MIN <=? v) && (v <=? INT_MAX) then Some v else None
  | S754_infinity _ | S754_nan => None
  end.

(** [Qt::WindowModality] *)
Inductive WindowModality := NonModal | WindowModal | ApplicationModal.

(** [QProgressDialog], with the behaviour Qt documents for it; when the
    dialog becomes visible is left out. *)
Record QProgressDialog := {
  labelText : string;
  cancelButtonText : string;
  minimum : Z;
  maximum : Z;
  value : Z;
  windowModality : WindowModality;
  (** whether the dialog calls [reset()] as soon as the value equals the
      maximum; Qt's default is true *)
  autoReset : bool;
  (** what [wasCanceled()] reports *)
  canceled : bool;
  (** a click on the cancel button that the event loop has not delivered *)
  cancel_clicked : bool
}.

Definition new_QProgressDialog (label cancel : string) (lo hi : Z)
  : QProgressDialog :=
  {| labelText := label; cancelButtonText := cancel;
     minimum := lo; maximum := hi; value := lo - 1;
     windowModality := NonModal;
     autoReset := true;
     canceled := false; cancel_clicked := false |}.

Definition setWindowModality (modality : WindowModality)
  (d : QProgressDialog) : QProgressDialog :=
  {| labelText := labelText d; cancelButtonText := cancelButtonText d;
     minimum := minimum d; maximum := maximum d; value := value d;
     windowModality := modality;
     autoReset := autoReset d;
     canceled := canceled d; cancel_clicked := cancel_clicked d |}.

Definition isModal (d : QProgressDialog) : bool :=
  match windowModality d with
  | NonModal => false
  | WindowModal | ApplicationModal => true
  end.

(** The dialog with its value, its canceled flag and the pending click
    replaced. *)
Definition with_progress (v : Z) (flag clicked : bool) (d : QProgressDialog)
  : QProgressDialog :=
  {| labelText := labelText d; cancelButtonText := cancelButtonText d;
     minimum := minimum d; maximum := maximum d; value := v;
     windowModality := windowModality d;
     autoReset := autoReset d;
     canceled := flag; cancel_clicked := clicked |}.

(** The value of a progress bar that was rewound: one below the minimum. *)
Definition rewound (d : QProgressDialog) : Z :=
  if decide (minimum d = INT_MIN) then INT_MIN else minimum d - 1.

(** [QProgressBar::setValue]: a value outside the range of the bar is
    ignored, unless the range is 0 to 0, which stands for a bar without
    steps. *)
Definition bar_setValue (v : Z) (d : QProgressDialog) : QProgressDialog :=
  if ((maximum d <? v) || (v <? minimum d))
     && negb ((maximum d =? 0) && (minimum d =? 0))
  then d
  else with_progress v (canceled d) (cancel_clicked d) d.

(** [reset()]: the bar is rewound and [wasCanceled()] becomes false. *)
Definition reset (d : QProgressDialog) : QProgressDialog :=
  with_progress (rewound d) false (cancel_clicked d) d.

(** [cancel()]: resets the dialog; [wasCanceled()] is true from then on,
    until the dialog is reset. *)
Definition cancel (d : QProgressDialog) : QProgressDialog :=
  with_progress (value (reset d)) true (cancel_clicked d) d.

(** The event loop delivers a pending click on the cancel button to
    [cancel()]. *)
Definition processEvents (d : QProgressDialog) : QProgressDialog :=
  if cancel_clicked d
  then cancel (with_progress (value d) (canceled d) false d)
  else d.

(** [setValue]: the bar takes the progress; when the dialog is modal the
    event loop runs; then, with [autoReset], a progress equal to the
    maximum resets the dialog. *)
Definition setValue (progress : Z) (d : QProgressDialog) : QProgressDialog :=
  let shown :=
    if isModal d then processEvents (bar_setValue progress d)
    else bar_setValue progress d in
  if (progress =? maximum shown) && autoReset shown
  then reset shown
  else shown.

Definition wasCanceled (d : QProgressDialog) : bool := canceled d.

(** The user pressing the cancel button while the codec is busy. *)
Definition click_cancel (d : QProgressDialog) : QProgressDialog :=
  with_progress (value d) (canceled d) true d.

(** [void*]: an address, 0 for the null pointer. *)
Definition VoidPtr := N.
Definition nullptr : VoidPtr := 0%N.

(** The live progress dialogs, by address. *)
Abbreviation Heap := (gmap N QProgressDialog).

(** The callback; [None] where C++ leaves the behaviour undefined (a
    pointer to no live dialog, a progress that does not fit an [int]). *)
Definition CompressCB (text : string) (percent : float) (ptr : VoidPtr)
  (heap : Heap) : option (bool * Heap) :=
  if decide (ptr = nullptr) then Some (false, heap)
  else
    progress_dialog ← heap !! ptr;
    progress ← float_to_int (float_mul percent (float_of_int 100));
    let shown := setValue progress progress_dialog in
    Some (negb (wasCanceled shown), <[ptr := shown]> heap).

Definition CompressCB_t : Type :=
  string -> float -> VoidPtr -> Heap -> option (bool * Heap).

(** ** Compressing and decompressing a disc image *)

Definition wii_warning : QMessageBox :=
  {| icon := Warning;
     windowTitle := EmptyString;
     text := "Are you sure?";
     informativeText :=
       "Compressing a Wii disc image will irreversibly change the "
       +:+ "compressed copy by removing "
       +:+ "padding data. Your disc image will still work.";
     standardButtons := [Yes; No] |}.

Definition success_box : QMessageBox :=
  {| icon := Information;
     windowTitle := "Success!";
     text := "Successfully compressed image.";
     informativeText := EmptyString;
     standardButtons := [Ok] |}.

Definition failure_message : string :=
  "Dolphin failed to complete the requested action.".

(** Where the local [progress_dialog] of [CompressISO] lives. *)
Definition progress_dialog_address : VoidPtr := 1%N.

(** What the user answers while [CompressISO] runs. *)
Record CompressISO_answers := {
  wii_warning_exec : StandardButton;
  getSaveFileName : QString
}.

Section WithDiscIO.

(** The two codec entry points of DiscIO/Blob.h, with the callback and
    its argument; they answer whether the operation went through. *)
Variable DecompressBlobToFile :
  QString -> QString -> CompressCB_t -> VoidPtr -> Heap ->
  option (bool * Heap).
Variable CompressFileToBlob :
  QString -> QString -> Z -> Z -> CompressCB_t -> VoidPtr -> Heap ->
  option (bool * Heap).

Definition CompressISO (w : GameList) (disk : Disk)
  (user : CompressISO_answers) : option (list Effect) :=
  original_path ← GetSelectedGame w;
  let file := disk original_path in
  let compressed := bool_decide (GetBlobType file = GCZ) in
  let is_wii := bool_decide (GetPlatformID file = WII_DISC) in
  let warned := negb compressed && is_wii in
  let asked := if warned then [QMessageBox_exec wii_warning] else [] in
  if warned && bool_decide (wii_warning_exec user = No) then Some asked
  else
    shown_path ← GetSelectedGame w;
    let prompt :=
      QFileDialog_getSaveFileName
        (if compressed
         then "Select where you want to save the decompressed image"
         else "Select where you want to save the compressed image")
        shown_path
        (GetGameID file +:+ (if compressed then ".gcm" else ".gcz"))
        (if compressed
         then "Uncompressed GC/Wii images (" +:+ "*.iso *.gcm"
         else "Compressed GC/Wii images (" +:+ "*.gcz)") in
    let dst_path := getSaveFileName user in
    if isEmpty dst_path then Some (asked ++ [prompt])
    else
      let progress_dialog :=
        setWindowModality WindowModal
          (new_QProgressDialog
             (if compressed then "Decompressing..." else "Compressing...")
             "Abort" 0 100) in
      let heap : Heap := {[ progress_dialog_address := progress_dialog ]} in
      outcome ←
        (if compressed
         then DecompressBlobToFile original_path dst_path
                CompressCB progress_dialog_address heap
         else CompressFileToBlob original_path dst_path
                (if is_wii then 1 else 0) 16384
                CompressCB progress_dialog_address heap);
      let good : bool := fst outcome in
      let call :=
        if compressed
        then DiscIO_DecompressBlobToFile original_path dst_path
        else DiscIO_CompressFileToBlob original_path dst_path
               (if is_wii then 1 else 0) 16384 in
      Some (asked ++ [prompt; call]
            ++ [if good then QMessageBox_exec success_box
                else QErrorMessage_showMessage failure_message]).

End WithDiscIO.

(** ** Removing a file *)

(** Modelled from the spec: the catalog's lookup of a path is defined
    outside GameList.cpp; the entry of a path is the first row that has
    it. *)
Fixpoint FindGame (path : QString) (games : list QString) : option nat :=
  match games with
  | [] => None
  | g :: rest =>
      if decide (g = path) then Some 0%nat
      else S <$> FindGame path rest
  end.

(** A proxy after its source model removed row [r]. *)
Definition proxy_rowsRemoved (r : Z) (proxy : QSortFilterProxyModel)
  : QSortFilterProxyModel :=
  (fun s => if r <? s then s - 1 else s) <$> filter (fun s => s <> r) proxy.

(** The selected indexes of a view after the source model removed row [r]:
    the index of the removed row goes, the rows below it move up. *)
Definition selection_rowsRemoved (r : Z) (proxy : QSortFilterProxyModel)
  (selection : list QModelIndex) : list QModelIndex :=
  omap (fun idx =>
          match at_index proxy (row idx) with
          | Some s =>
              if decide (s = r) then None
              else
                let gone_above :=
                  length (filter (fun s' => s' = r)
                            (take (Z.to_nat (row idx)) proxy)) in
                Some {| row := row idx - Z.of_nat gone_above;
                        column := column idx |}
          | None => None
          end) selection.

(** Modelled from the spec: GameListModel::RemoveGame is defined outside
    GameList.cpp; [removeGame(path)] removes the catalog entry of that
    path and the catalog notifies on remove.  The notification reaches the
    proxies and the selection models, connected when the views were made,
    and then [ConsiderViewChange], connected in the constructor. *)
Definition RemoveGame (path : QString) (w : GameList) : GameList :=
  match FindGame path (m_games (m_model w)) with
  | None => w
  | Some entry =>
      let r := Z.of_nat entry in
      ConsiderViewChange
        {| m_model := {| m_games := delete entry (m_games (m_model w)) |};
           m_table_proxy := proxy_rowsRemoved r (m_table_proxy w);
           m_list_proxy := proxy_rowsRemoved r (m_list_proxy w);
           table_selection :=
             selection_rowsRemoved r (m_table_proxy w) (table_selection w);
           list_selection :=
             selection_rowsRemoved r (m_list_proxy w) (list_selection w);
           m_prefer_table := m_prefer_table w;
           currentWidget := currentWidget w |}
  end.

Definition confirm_dialog : QMessageBox :=
  {| icon := Warning;
     windowTitle := EmptyString;
     text := "Are you sure you want to delete this file?";
     informativeText := "You won't be able to undo this!";
     standardButtons := [Yes; Cancel] |}.

Definition error_dialog : QMessageBox :=
  {| icon := Critical;
     windowTitle := EmptyString;
     text := "Failed to delete the selected file.";
     informativeText :=
       "Check whether you have the permissions required to "
       +:+ "delete the file or whether it's still in use.";
     standardButtons := [Retry; Abort] |}.

(** What the filesystem and the user do during the loop of [DeleteFile]:
    either [File::Delete] succeeds, or it fails, the user answers the error
    dialog, and the story goes on. *)
Inductive Deletion :=
| Delete_succeeds
| Delete_fails (error_dialog_exec : StandardButton) (next : Deletion).

Fixpoint delete_loop (game : QString) (attempts : Deletion) (w : GameList)
  : GameList * list Effect :=
  match attempts with
  | Delete_succeeds => (RemoveGame game w, [File_Delete game])
  | Delete_fails answer next =>
      if decide (answer = Abort)
      then (w, [File_Delete game; QMessageBox_exec error_dialog])
      else
        let '(w', trace) := delete_loop game next w in
        (w', File_Delete game :: QMessageBox_exec error_dialog :: trace)
  end.

Definition DeleteFile (w : GameList) (confirm_dialog_exec : StandardButton)
  (attempts : Deletion) : option (GameList * list Effect) :=
  game ← GetSelectedGame w;
  if decide (confirm_dialog_exec = Yes)
  then
    let '(w', trace) := delete_loop game attempts w in
    Some (w', QMessageBox_exec confirm_dialog :: trace)
  else Some (w, [QMessageBox_exec confirm_dialog]).


(** Modelled from the spec: the codec calls back once per report and
    stops at the first [false]. *)
Fixpoint report_progress (callback : CompressCB_t) (arg : VoidPtr)
  (todo : list (float * bool)) (heap : Heap) : option (bool * Heap) :=
  match todo with
  | [] => Some (true, heap)
  | (percent, clicked) :: rest =>
      let heap1 := if clicked : bool then alter click_cancel arg heap
                   else heap in
      answer ← callback "Compressing" percent arg heap1;
      if fst answer : bool
      then report_progress callback arg rest (snd answer)
      else Some (false, snd answer)
  end.




(** ** Vocabulary of the statements *)

(** The view the user sees: the spec's Table, IconGrid and Empty. *)
Inductive ViewMode := Table | IconGrid | Empty.

Definition active_view (w : GameList) : ViewMode :=
  match currentWidget w with
  | m_table => Table
  | m_list => IconGrid
  | m_empty => Empty
  end.

(** The policy in the spec's words: Empty for a catalog of size 0, else
    Table if the preference is Table, else IconGrid. *)
Definition chooseView (catalogSize : Z) (preferTable : bool) : ViewMode :=
  if catalogSize =? 0 then Empty
  else if preferTable then Table else IconGrid.

(** Selection resolution hands a game to the slot. *)
Definition selects (w : GameList) (game : QString) : Prop :=
  GetSelectedGame w = Some game /\ isEmpty game = false.

Definition is_codec_call (e : Effect) : bool :=
  match e with
  | DiscIO_DecompressBlobToFile _ _ | DiscIO_CompressFileToBlob _ _ _ _ => true
  | _ => false
  end.

Definition success_dialog : Effect := QMessageBox_exec success_box.
Definition failure_dialog : Effect := QErrorMessage_showMessage failure_message.

(** A dialog that reports how an operation went. *)
Definition is_result_dialog (e : Effect) : bool :=
  match e with
  | QMessageBox_exec box =>
      match icon box with
      | Information | Critical => true
      | NoIcon | Warning => false
      end
  | QErrorMessage_showMessage _ => true
  | _ => false
  end.

(** What the codec call that [CompressISO] makes for [original_path]
    answers. *)
Definition codec_result
  (DecompressBlobToFile :
     QString -> QString -> CompressCB_t -> VoidPtr -> Heap ->
     option (bool * Heap))
  (CompressFileToBlob :
     QString -> QString -> Z -> Z -> CompressCB_t -> VoidPtr -> Heap ->
     option (bool * Heap))
  (file : GameFile) (original_path dst_path : QString)
  : option (bool * Heap) :=
  let heap : Heap :=
    {[ progress_dialog_address :=
         setWindowModality WindowModal
           (new_QProgressDialog
              (if bool_decide (GetBlobType file = GCZ)
               then "Decompressing..." else "Compressing...")
              "Abort" 0 100) ]} in
  if bool_decide (GetBlobType file = GCZ)
  then DecompressBlobToFile original_path dst_path
         CompressCB progress_dialog_address heap
  else CompressFileToBlob original_path dst_path
         (if bool_decide (GetPlatformID file = WII_DISC) then 1 else 0) 16384
         CompressCB progress_dialog_address heap.

(** The user declined the Wii warning, when it was shown. *)
Definition declined (file : GameFile) (user : CompressISO_answers) : bool :=
  negb (bool_decide (GetBlobType file = GCZ))
  && bool_decide (GetPlatformID file = WII_DISC)
  && bool_decide (wii_warning_exec user = No).

Definition is_disc (platform : Platform) : Prop :=
  platform = GAMECUBE_DISC \/ platform = WII_DISC.

Definition default_iso_entry : MenuEntry :=
  addAction "Default ISO" SLOT_SetDefaultISO.
Definition decompress_entry : MenuEntry :=
  addAction "Decompress ISO" SLOT_DecompressISO.
Definition compress_entry : MenuEntry :=
  addAction "Compress ISO" SLOT_CompressISO.

(** The disc block in the spec's words: the default-disc entry, then
    exactly one of Decompress and Compress, then a separator. *)
Definition has_disc_block_of_spec (menu : QMenu) : Prop :=
  exists before codec_entry after,
    menu = before ++ [default_iso_entry; codec_entry; Separator] ++ after /\
    (codec_entry = decompress_entry \/ codec_entry = compress_entry).

(** The codec entry a blob type gets: Decompress for GCZ, Compress for
    PLAIN, none for the other formats. *)
Definition codec_entries (blob_type : BlobType) : list MenuEntry :=
  match blob_type with
  | GCZ => [decompress_entry]
  | PLAIN => [compress_entry]
  | DRIVE | DIRECTORY | CISO | WBFS | TGC => []
  end.

(** The user answers Retry [n] times before the story goes on. *)
Fixpoint retrying (n : nat) (then_ : Deletion) : Deletion :=
  match n with
  | O => then_
  | S k => Delete_fails Retry (retrying k then_)
  end.

(** The trace of [n] failed attempts: each a delete call and the error
    dialog that follows it. *)
Fixpoint failed_attempts (game : QString) (n : nat) : list Effect :=
  match n with
  | O => []
  | S k =>
      File_Delete game :: QMessageBox_exec error_dialog
      :: failed_attempts game k
  end.

(** Every answer to the error dialog is one of the buttons it has. *)
Fixpoint answers_offered (attempts : Deletion) : Prop :=
  match attempts with
  | Delete_succeeds => True
  | Delete_fails answer next =>
      In answer (standardButtons error_dialog) /\ answers_offered next
  end.

(** Neither a codec call nor a result dialog. *)
Definition quiet (e : Effect) : Prop :=
  is_codec_call e = false /\ is_result_dialog e = false.

(** The scaled progress fits an [int]. *)
Definition reportable (percent : float) : Prop :=
  is_Some (float_to_int (float_mul percent (float_of_int 100))).


(** The user has asked to cancel: the dialog is canceled already, or a
    click on its cancel button waits for the event loop. *)
Definition cancel_requested (d : QProgressDialog) : bool :=
  canceled d || cancel_clicked d.

(** The event loop that [setValue] runs delivers a click: the dialog is
    modal and a click waits. *)
Definition click_delivered (d : QProgressDialog) : bool :=
  isModal d && cancel_clicked d.

(** The progress the callback hands to the dialog: [percent * 100] in
    binary32, truncated to an [int]. *)
Definition scaled_progress (percent : float) : option Z :=
  float_to_int (float_mul percent (float_of_int 100)).



(** A result dialog run with [exec()]: modal, the call returns when the
    user has closed it.  [QErrorMessage::showMessage] is not one: it asks
    for the message to be shown and returns at once. *)
Definition is_modal_result_dialog (e : Effect) : bool :=
  match e with
  | QMessageBox_exec box =>
      match icon box with
      | Information | Critical => true
      | NoIcon | Warning => false
      end
  | _ => false
  end.

Definition modal_result_dialogs (trace : list Effect) : list Effect :=
  List.filter is_modal_result_dialog trace.

(** The selection and the proxy of the view the user sees; the empty-state
    label has no rows. *)
Definition active_selection (w : GameList) : list QModelIndex :=
  match active_view w with
  | Table => table_selection w
  | IconGrid => list_selection w
  | Empty => []
  end.

Definition active_proxy (w : GameList) : QSortFilterProxyModel :=
  match active_view w with
  | Table => m_table_proxy w
  | IconGrid => m_list_proxy w
  | Empty => []
  end.

(** ** States the widget can be in

    Every row a proxy shows is a row of the catalog, every selected index
    is a row of its view's proxy, and the page shown is the one
    [ConsiderViewChange] picked last. *)
Definition proxy_ok (m : GameListModel) (proxy : QSortFilterProxyModel)
  : Prop :=
  Forall (fun s => 0 <= s < rowCount m) proxy.

Definition selection_ok (proxy : QSortFilterProxyModel)
  (selection : list QModelIndex) : Prop :=
  Forall (fun idx => 0 <= row idx < Z.of_nat (length proxy)) selection.

Record GameList_ok (w : GameList) : Prop := {
  table_proxy_ok : proxy_ok (m_model w) (m_table_proxy w);
  list_proxy_ok : proxy_ok (m_model w) (m_list_proxy w);
  table_selection_ok : selection_ok (m_table_proxy w) (table_selection w);
  list_selection_ok : selection_ok (m_list_proxy w) (list_selection w);
  page_ok : currentWidget w = currentWidget (ConsiderViewChange w)
}.

(** ** A shelf of games to run the slots on *)

Module Shelf.

Definition melee_gcz : QString := "/games/melee.gcz".
Definition sports_wbfs : QString := "/games/sports.wbfs".
Definition channel_wad : QString := "/games/channel.wad".
Definition kart_iso : QString := "/games/kart.iso".

Definition disk : Disk := fun path =>
  if decide (path = melee_gcz) then
    {| GetPlatformID := GAMECUBE_DISC; GetBlobType := GCZ;
       IsInstalled := false; GetGameID := "GALE01";
       GetWiiFSPath := EmptyString |}
  else if decide (path = sports_wbfs) then
    {| GetPlatformID := WII_DISC; GetBlobType := WBFS;
       IsInstalled := false; GetGameID := "RSPE01";
       GetWiiFSPath := "/wii/title/00010000/52535045" |}
  else if decide (path = channel_wad) then
    {| GetPlatformID := WII_WAD; GetBlobType := PLAIN;
       IsInstalled := false; GetGameID := "HAXX01";
       GetWiiFSPath := "/wii/title/00010001/48415858" |}
  else
    {| GetPlatformID := WII_DISC; GetBlobType := PLAIN;
       IsInstalled := false; GetGameID := "RMCE01";
       GetWiiFSPath := "/wii/title/00010000/524d4345" |}.

(** Four games; the table shows them sorted by title, the icon list in
    catalog order; the row [table_row] of the table is selected. *)
Definition with_table_row (table_row : Z) : GameList :=
  {| m_model :=
       {| m_games := [melee_gcz; sports_wbfs; channel_wad; kart_iso] |};
     m_table_proxy := [2; 3; 0; 1];
     m_list_proxy := [0; 1; 2; 3];
     table_selection :=
       [{| row := table_row; column := 0 |};
        {| row := table_row; column := 1 |}];
     list_selection := [];
     m_prefer_table := true;
     currentWidget := m_table |}.

Definition on_channel_wad : GameList := with_table_row 0.
Definition on_kart_iso : GameList := with_table_row 1.
Definition on_melee_gcz : GameList := with_table_row 2.
Definition on_sports_wbfs : GameList := with_table_row 3.

(** Nothing found yet: the widget as constructed. *)
Definition bare : GameList := GameList_new {| PreferredView := true |}.

(** binary32 0.5 *)
Definition half : float := S754_finite false 8388608 (-24).

Definition zero : float := S754_zero false.
Definition one : float := float_of_int 1.

(** A codec that never calls back and reports what it is told to. *)
Definition silent_codec (good : bool)
  : CompressCB_t -> VoidPtr -> Heap -> option (bool * Heap) :=
  fun _ _ heap => Some (good, heap).

Definition silent_DecompressBlobToFile (good : bool)
  (infile outfile : QString) := silent_codec good.

Definition silent_CompressFileToBlob (good : bool)
  (infile outfile : QString) (sub_type block_size : Z) := silent_codec good.

(** The user accepts the warning and picks a destination. *)
Definition to_out : CompressISO_answers :=
  {| wii_warning_exec := Yes; getSaveFileName := "/out/image" |}.

(** The user accepts the warning and closes the file prompt. *)
Definition no_destination : CompressISO_answers :=
  {| wii_warning_exec := Yes; getSaveFileName := EmptyString |}.


(** The progress dialog as [CompressISO] hands it to the decompressor. *)
Definition fresh_heap : Heap :=
  {[ progress_dialog_address :=
       setWindowModality WindowModal
         (new_QProgressDialog "Decompressing..." "Abort" 0 100) ]}.

End Shelf.

(** ** The slots that call into the game file

    [InstallWAD], [UninstallWAD] and [ExportWiiSave] make one call each on
    [GameFile(GetSelectedGame())]; what the call answers is an input of the
    slot.  [OpenWiki] hands a URL to the desktop. *)

Inductive Call :=
| GameFile_Install (path : QString)
| GameFile_Uninstall (path : QString)
| GameFile_ExportWiiSave (path : QString)
| QDesktopServices_openUrl (url : QString).

(** One step of such a slot: a dialog or menu of [Effect], or a call. *)
Inductive Step := Shows (e : Effect) | Calls (c : Call).

(** The message box the three slots fill in from [success]: no title, no
    button set by the slot. *)
Definition result_dialog (success : bool) (succeeded failed : string)
  : QMessageBox :=
  {| icon := if success then Information else Critical;
     windowTitle := EmptyString;
     text := if success then succeeded else failed;
     informativeText := EmptyString;
     standardButtons := [] |}.

Definition ExportWiiSave (w : GameList) (success : bool)
  : option (list Step) :=
  game ← GetSelectedGame w;
  Some [Calls (GameFile_ExportWiiSave game);
        Shows (QMessageBox_exec
                 (result_dialog success
                    "Successfully exported save files"
                    "Failed to export save files!"))].

Definition InstallWAD (w : GameList) (success : bool) : option (list Step) :=
  game ← GetSelectedGame w;
  Some [Calls (GameFile_Install game);
        Shows (QMessageBox_exec
                 (result_dialog success
                    "Succesfully installed title to the NAND"
                    "Failed to install title to the NAND"))].

Definition warning_dialog : QMessageBox :=
  {| icon := Information;
     windowTitle := EmptyString;
     text :=
       "Uninstalling the WAD will remove the currently installed version of "
       +:+ "this title from the NAND without deleting its save data. Continue?";
     informativeText := EmptyString;
     standardButtons := [No; Yes] |}.

(** The selection is read after the warning has been answered. *)
Definition UninstallWAD (w : GameList) (warning_dialog_exec : StandardButton)
  (success : bool) : option (list Step) :=
  if decide (warning_dialog_exec = No)
  then Some [Shows (QMessageBox_exec warning_dialog)]
  else
    game ← GetSelectedGame w;
    Some [Shows (QMessageBox_exec warning_dialog);
          Calls (GameFile_Uninstall game);
          Shows (QMessageBox_exec
                   (result_dialog success
                      "Succesfully removed title from the NAND"
                      "Failed to remove title from the NAND"))].

Definition wiki_base : QString :=
  "https://wiki.dolphin-emu.org/index.php?title=".

Definition OpenWiki (w : GameList) (disk : Disk) : option (list Step) :=
  game ← GetSelectedGame w;
  let game_id := GetGameID (disk game) in
  Some [Calls (QDesktopServices_openUrl (wiki_base +:+ game_id))].

(** ** The configuration the widget reads and writes *)

Record SConfig := {
  m_strDefaultISO : string;
  m_showSystemColumn : bool;
  m_showIDColumn : bool;
  m_showBannerColumn : bool;
  m_showTitleColumn : bool;
  m_showDescriptionColumn : bool;
  m_showMakerColumn : bool;
  m_showSizeColumn : bool;
  m_showRegionColumn : bool;
  m_showStateColumn : bool
}.

Definition SetDefaultISO (w : GameList) (config : SConfig) : option SConfig :=
  game ← GetSelectedGame w;
  Some {| m_strDefaultISO := game;
          m_showSystemColumn := m_showSystemColumn config;
          m_showIDColumn := m_showIDColumn config;
          m_showBannerColumn := m_showBannerColumn config;
          m_showTitleColumn := m_showTitleColumn config;
          m_showDescriptionColumn := m_showDescriptionColumn config;
          m_showMakerColumn := m_showMakerColumn config;
          m_showSizeColumn := m_showSizeColumn config;
          m_showRegionColumn := m_showRegionColumn config;
          m_showStateColumn := m_showStateColumn config |}.

(** ** The columns of the table

    The column numbers are the enumerators of GameListModel, declared
    outside GameList.cpp; the definitions take them as they come. *)

Record Columns := {
  COL_PLATFORM : Z;
  COL_ID : Z;
  COL_BANNER : Z;
  COL_TITLE : Z;
  COL_DESCRIPTION : Z;
  COL_MAKER : Z;
  COL_SIZE : Z;
  COL_COUNTRY : Z;
  COL_RATING : Z
}.

(** Which columns of [m_table] are hidden; a column never set is shown. *)
Abbreviation HiddenColumns := (gmap Z bool).

Definition setColumnHidden (column : Z) (hide : bool) (table : HiddenColumns)
  : HiddenColumns :=
  <[column := hide]> table.

Definition isColumnHidden (column : Z) (table : HiddenColumns) : bool :=
  default false (table !! column).

(** The part of [MakeTableView] that hides columns, on a new table view. *)
Definition MakeTableView (c : Columns) (config : SConfig) : HiddenColumns :=
  let table : HiddenColumns := ∅ in
  let table :=
    setColumnHidden (COL_PLATFORM c) (negb (m_showSystemColumn config)) table in
  let table :=
    setColumnHidden (COL_ID c) (negb (m_showIDColumn config)) table in
  let table :=
    setColumnHidden (COL_BANNER c) (negb (m_showBannerColumn config)) table in
  let table :=
    setColumnHidden (COL_TITLE c) (negb (m_showTitleColumn config)) table in
  let table :=
    setColumnHidden (COL_DESCRIPTION c)
      (negb (m_showDescriptionColumn config)) table in
  let table :=
    setColumnHidden (COL_MAKER c) (negb (m_showMakerColumn config)) table in
  let table :=
    setColumnHidden (COL_SIZE c) (negb (m_showSizeColumn config)) table in
  let table :=
    setColumnHidden (COL_COUNTRY c) (negb (m_showRegionColumn config)) table in
  setColumnHidden (COL_RATING c) (negb (m_showStateColumn config)) table.

(** The static [QMap] of [OnColumnVisibilityToggled]. *)
Definition rowname_to_col_index (c : Columns) : gmap string Z :=
  list_to_map
    [("Banner", COL_BANNER c);
     ("Country", COL_COUNTRY c);
     ("Description", COL_DESCRIPTION c);
     ("ID", COL_ID c);
     ("Maker", COL_MAKER c);
     ("Platform", COL_PLATFORM c);
     ("Size", COL_SIZE c);
     ("Title", COL_TITLE c);
     ("Quality", COL_RATING c)].

(** [operator[]] of a [const QMap]: the value of the key, or a
    default-constructed [int] when the key is missing. *)
Definition QMap_at (m : gmap string Z) (key : QString) : Z :=
  default 0 (m !! key).

Definition OnColumnVisibilityToggled (c : Columns) (row : QString)
  (visible : bool) (table : HiddenColumns) : HiddenColumns :=
  setColumnHidden (QMap_at (rowname_to_col_index c) row) (negb visible) table.

(** The names the map knows. *)
Definition column_names : list QString :=
  ["Banner"; "Country"; "Description"; "ID"; "Maker"; "Platform"; "Size";
   "Title"; "Quality"].

Definition column_numbers (c : Columns) : list Z :=
  [COL_PLATFORM c; COL_ID c; COL_BANNER c; COL_TITLE c; COL_DESCRIPTION c;
   COL_MAKER c; COL_SIZE c; COL_COUNTRY c; COL_RATING c].

(** The show flag [MakeTableView] reads for each column, in the order of
    [column_numbers]. *)
Definition show_flags (config : SConfig) : list bool :=
  [m_showSystemColumn config; m_showIDColumn config;
   m_showBannerColumn config; m_showTitleColumn config;
   m_showDescriptionColumn config; m_showMakerColumn config;
   m_showSizeColumn config; m_showRegionColumn config;
   m_showStateColumn config].

(** ** The emulation signals, one after the other *)

Inductive EmulationSignal :=
| EmulationStarted (now : Disk)
| EmulationStopped (now : Disk).

Definition emit (s : EmulationSignal) (menu : QMenu) : QMenu :=
  match s with
  | EmulationStarted now => emit_EmulationStarted now menu
  | EmulationStopped now => emit_EmulationStopped now menu
  end.

Definition emit_all (signals : list EmulationSignal) (menu : QMenu) : QMenu :=
  fold_left (fun m s => emit s m) signals menu.

(** What the lambdas of [ShowContextMenu] leave in the two package entries
    after a signal. *)
Definition install_after (s : EmulationSignal) : bool :=
  match s with
  | EmulationStarted _ => false
  | EmulationStopped _ => true
  end.

Definition uninstall_after (game : QString) (s : EmulationSignal) : bool :=
  match s with
  | EmulationStarted _ => false
  | EmulationStopped now => IsInstalled (now game)
  end.

(** A menu with the enabled flags of its two package entries replaced. *)
Definition with_wad_flags (install uninstall : bool) (menu : QMenu) : QMenu :=
  map (fun e =>
         match e with
         | Action a =>
             if decide (triggered a = SLOT_InstallWAD)
             then Action (setEnabled install a)
             else if decide (triggered a = SLOT_UninstallWAD)
             then Action (setEnabled uninstall a)
             else e
         | Separator => e
         end) menu.

(** No separator first, last, or next to another one. *)
Fixpoint separators_apart (menu : QMenu) : bool :=
  match menu with
  | [] => true
  | Separator :: rest =>
      match rest with
      | [] | Separator :: _ => false
      | Action _ :: _ => separators_apart rest
      end
  | Action _ :: rest => separators_apart rest
  end.

Definition starts_with_action (menu : QMenu) : bool :=
  match menu with
  | Action _ :: _ => true
  | _ => false
  end.

(** Whether the menu has an entry wired to [slot]. *)
Definition offers (slot : Slot) (menu : QMenu) : bool :=
  match entry_enabled slot menu with
  | Some _ => true
  | None => false
  end.

(** The selected indexes of the view [GetSelectedGame] reads. *)
Definition current_selection (w : GameList) : list QModelIndex :=
  if decide (currentWidget w = m_table)
  then table_selection w else list_selection w.

(** The widget with other indexes selected in the view that
    [GetSelectedGame] reads. *)
Definition with_current_selection (selection : list QModelIndex)
  (w : GameList) : GameList :=
  {| m_model := m_model w;
     m_table_proxy := m_table_proxy w;
     m_list_proxy := m_list_proxy w;
     table_selection :=
       if decide (currentWidget w = m_table)
       then selection else table_selection w;
     list_selection :=
       if decide (currentWidget w = m_table)
       then list_selection w else selection;
     m_prefer_table := m_prefer_table w;
     currentWidget := currentWidget w |}.

(** The codec call in a trace of [CompressISO], when there is one. *)
Definition codec_calls (trace : list Effect) : list Effect :=
  List.filter is_codec_call trace.

Module Desk.

(** The enumerators of GameListModel, counted from 0. *)
Definition columns : Columns :=
  {| COL_PLATFORM := 0; COL_ID := 1; COL_BANNER := 2; COL_TITLE := 3;
     COL_DESCRIPTION := 4; COL_MAKER := 5; COL_SIZE := 6; COL_COUNTRY := 7;
     COL_RATING := 8 |}.

(** Every column shown but the description and the maker. *)
Definition config : SConfig :=
  {| m_strDefaultISO := EmptyString;
     m_showSystemColumn := true;
     m_showIDColumn := true;
     m_showBannerColumn := true;
     m_showTitleColumn := true;
     m_showDescriptionColumn := false;
     m_showMakerColumn := false;
     m_showSizeColumn := true;
     m_showRegionColumn := true;
     m_showStateColumn := true |}.

(** The shelf with the icon list preferred and showing, the row of the
    Wii disc image selected in the table and nothing in the list. *)
Definition list_showing : GameList :=
  {| m_model := m_model Shelf.on_kart_iso;
     m_table_proxy := m_table_proxy Shelf.on_kart_iso;
     m_list_proxy := m_list_proxy Shelf.on_kart_iso;
     table_selection := table_selection Shelf.on_kart_iso;
     list_selection := [];
     m_prefer_table := false;
     currentWidget := m_list |}.

(** A catalog of one game, selected in the table. *)
Definition last_game : GameList :=
  {| m_model := {| m_games := [Shelf.kart_iso] |};
     m_table_proxy := [0];
     m_list_proxy := [0];
     table_selection := [{| row := 0; column := 0 |}];
     list_selection := [];
     m_prefer_table := true;
     currentWidget := m_table |}.




(** The package gets installed while the menu is open. *)
Definition disk_installed : Disk := fun path =>
  {| GetPlatformID := GetPlatformID (Shelf.disk path);
     GetBlobType := GetBlobType (Shelf.disk path);
     IsInstalled := true;
     GetGameID := GetGameID (Shelf.disk path);
     GetWiiFSPath := GetWiiFSPath (Shelf.disk path) |}.

End Desk.

(** ** View selection *)

Lemma rowCount_nonneg (m : GameListModel) : 0 <= rowCount m.
Proof. unfold rowCount. lia. Qed.

Lemma currentWidget_ConsiderViewChange (w : GameList) :
  currentWidget (ConsiderViewChange w) =
  if 0 <? rowCount (m_model w)
  then if m_prefer_table w then m_table else m_list
  else m_empty.
Proof.
  unfold ConsiderViewChange.
  destruct (0 <? rowCount (m_model w)); [destruct (m_prefer_table w) |];
    reflexivity.
Qed.

(** On a count that is not negative, the test [rows > 0] of the code and
    the test [catalogSize == 0] of the spec pick the same view. *)
Lemma page_of_count (rows : Z) (prefer_table : bool) :
  0 <= rows ->
  match (if 0 <? rows
         then if prefer_table then m_table else m_list
         else m_empty) with
  | m_table => Table
  | m_list => IconGrid
  | m_empty => Empty
  end = chooseView rows prefer_table.
Proof.
  intros Hge. unfold chooseView.
  destruct (Z.ltb_spec 0 rows) as [Hpos | Hle];
    destruct (Z.eqb_spec rows 0) as [Hz | Hnz];
    try lia.
  - destruct prefer_table; reflexivity.
  - reflexivity.
Qed.

(** C1: the view chosen by the view-selection recomputation is Empty when
    the catalog size is 0, whatever the preference, and otherwise Table
    exactly when the preference is Table and IconGrid otherwise. *)
Theorem ConsiderViewChange_chooseView (w : GameList) :
  active_view (ConsiderViewChange w) =
  chooseView (rowCount (m_model w)) (m_prefer_table w).
Proof.
  unfold active_view.
  rewrite currentWidget_ConsiderViewChange.
  apply page_of_count, rowCount_nonneg.
Qed.

(** Toggling the preference re-evaluates the same policy. *)
Lemma SetPreferredView_chooseView (table : bool) (w : GameList) (s : Settings) :
  active_view (fst (SetPreferredView table w s)) =
    chooseView (rowCount (m_model w)) table /\
  PreferredView (snd (SetPreferredView table w s)) = table.
Proof.
  unfold SetPreferredView. simpl fst. simpl snd. split; [| reflexivity].
  unfold active_view. rewrite currentWidget_ConsiderViewChange.
  apply page_of_count, rowCount_nonneg.
Qed.

Lemma GameList_new_view (s : Settings) : active_view (GameList_new s) = Empty.
Proof. reflexivity. Qed.

(** ** The slots on the shelf *)

Example selected_on_shelf :
  GetSelectedGame Shelf.on_channel_wad = Some Shelf.channel_wad /\
  GetSelectedGame Shelf.on_kart_iso = Some Shelf.kart_iso /\
  GetSelectedGame Shelf.on_melee_gcz = Some Shelf.melee_gcz /\
  GetSelectedGame Shelf.on_sports_wbfs = Some Shelf.sports_wbfs /\
  GetSelectedGame Shelf.bare = Some EmptyString /\
  GetSelectedGame (Shelf.with_table_row 7) = None.
Proof. repeat split; reflexivity. Qed.

Example menu_of_wii_iso :
  ShowContextMenu Shelf.on_kart_iso Shelf.disk false =
    Some [QMenu_exec
            [addAction "Properties" SLOT_OpenProperties;
             addAction "Wiki" SLOT_OpenWiki;
             Separator;
             addAction "Default ISO" SLOT_SetDefaultISO;
             addAction "Compress ISO" SLOT_CompressISO;
             Separator;
             addAction "Open Wii save folder" SLOT_OpenSaveFolder;
             addAction "Export Wii save (Experimental)" SLOT_ExportWiiSave;
             Separator;
             addAction "Open Containing Folder" SLOT_OpenContainingFolder;
             addAction "Remove File" SLOT_DeleteFile]].
Proof. reflexivity. Qed.

Example menu_of_gamecube_gcz :
  ShowContextMenu Shelf.on_melee_gcz Shelf.disk true =
    Some [QMenu_exec
            [addAction "Properties" SLOT_OpenProperties;
             addAction "Wiki" SLOT_OpenWiki;
             Separator;
             addAction "Default ISO" SLOT_SetDefaultISO;
             addAction "Decompress ISO" SLOT_DecompressISO;
             Separator;
             addAction "Open Containing Folder" SLOT_OpenContainingFolder;
             addAction "Remove File" SLOT_DeleteFile]].
Proof. reflexivity. Qed.

Example compress_wii_iso_declined :
  CompressISO (Shelf.silent_DecompressBlobToFile true)
    (Shelf.silent_CompressFileToBlob true) Shelf.on_kart_iso Shelf.disk
    {| wii_warning_exec := No; getSaveFileName := "/out/image" |} =
    Some [QMessageBox_exec wii_warning].
Proof. reflexivity. Qed.

Example compress_wii_iso_failed :
  CompressISO (Shelf.silent_DecompressBlobToFile true)
    (Shelf.silent_CompressFileToBlob false) Shelf.on_kart_iso Shelf.disk
    Shelf.to_out =
    Some [QMessageBox_exec wii_warning;
          QFileDialog_getSaveFileName
            "Select where you want to save the compressed image"
            Shelf.kart_iso "RMCE01.gcz"
            ("Compressed GC/Wii images (" +:+ "*.gcz)");
          DiscIO_CompressFileToBlob Shelf.kart_iso "/out/image" 1 16384;
          failure_dialog].
Proof. reflexivity. Qed.

Example decompress_gamecube_gcz :
  CompressISO (Shelf.silent_DecompressBlobToFile true)
    (Shelf.silent_CompressFileToBlob false) Shelf.on_melee_gcz Shelf.disk
    Shelf.to_out =
    Some [QFileDialog_getSaveFileName
            "Select where you want to save the decompressed image"
            Shelf.melee_gcz "GALE01.gcm"
            ("Uncompressed GC/Wii images (" +:+ "*.iso *.gcm");
          DiscIO_DecompressBlobToFile Shelf.melee_gcz "/out/image";
          success_dialog].
Proof. reflexivity. Qed.

Example delete_not_confirmed :
  DeleteFile Shelf.on_kart_iso Cancel Delete_succeeds =
    Some (Shelf.on_kart_iso, [QMessageBox_exec confirm_dialog]).
Proof. reflexivity. Qed.

Example delete_after_one_retry :
  DeleteFile Shelf.on_kart_iso Yes (Delete_fails Retry Delete_succeeds) =
    Some ({| m_model :=
               {| m_games := [Shelf.melee_gcz; Shelf.sports_wbfs;
                              Shelf.channel_wad] |};
             m_table_proxy := [2; 0; 1];
             m_list_proxy := [0; 1; 2];
             table_selection := [];
             list_selection := [];
             m_prefer_table := true;
             currentWidget := m_table |},
          [QMessageBox_exec confirm_dialog;
           File_Delete Shelf.kart_iso;
           QMessageBox_exec error_dialog;
           File_Delete Shelf.kart_iso]).
Proof. reflexivity. Qed.

Example progress_values :
  float_to_int (float_mul Shelf.zero (float_of_int 100)) = Some 0 /\
  float_to_int (float_mul Shelf.half (float_of_int 100)) = Some 50 /\
  float_to_int (float_mul Shelf.one (float_of_int 100)) = Some 100.
Proof. repeat split; reflexivity. Qed.

(** ** The context menu *)

(** C9: a context-menu request made while selection resolution returns
    empty builds no menu and does nothing. *)
Theorem ShowContextMenu_without_selection
  (w : GameList) (disk : Disk) (running : bool) (game : QString) :
  GetSelectedGame w = Some game -> isEmpty game = true ->
  ShowContextMenu w disk running = Some [].
Proof.
  intros Hsel Hempty. unfold ShowContextMenu.
  rewrite Hsel. simpl. rewrite Hempty. reflexivity.
Qed.

Lemma ShowContextMenu_without_selection_witness :
  GetSelectedGame Shelf.bare = Some EmptyString /\
  isEmpty EmptyString = true /\
  ShowContextMenu Shelf.bare Shelf.disk false = Some [].
Proof.
  split; [reflexivity |]. split; [reflexivity |].
  apply (ShowContextMenu_without_selection Shelf.bare Shelf.disk false
           EmptyString); reflexivity.
Defined.

Lemma ShowContextMenu_selected
  (w : GameList) (disk : Disk) (running : bool) (game : QString) :
  selects w game ->
  ShowContextMenu w disk running =
    Some [QMenu_exec (build_menu disk running game)].
Proof.
  intros [Hsel Hne]. unfold ShowContextMenu.
  rewrite Hsel. simpl. rewrite Hne. reflexivity.
Qed.

Lemma In_middle_of_three {A} (before after : list A) (x y z : A) :
  In y (before ++ [x; y; z] ++ after).
Proof. apply in_or_app. right. simpl. auto. Qed.

(** C2, as written, fails: a Wii disc stored as WBFS is a disc image, and
    its menu has the default-disc entry followed at once by the separator,
    with neither Decompress nor Compress. *)
Lemma ShowContextMenu_wbfs_no_codec_entry :
  selects Shelf.on_sports_wbfs Shelf.sports_wbfs /\
  is_disc (GetPlatformID (Shelf.disk Shelf.sports_wbfs)) /\
  ShowContextMenu Shelf.on_sports_wbfs Shelf.disk false =
    Some [QMenu_exec (build_menu Shelf.disk false Shelf.sports_wbfs)] /\
  ~ has_disc_block_of_spec (build_menu Shelf.disk false Shelf.sports_wbfs).
Proof.
  split; [split; reflexivity |].
  split; [right; reflexivity |].
  split; [reflexivity |].
  intros (before & codec_entry & after & Hmenu & Hentry).
  assert (Hin : In codec_entry (build_menu Shelf.disk false Shelf.sports_wbfs)).
  { rewrite Hmenu. apply In_middle_of_three. }
  vm_compute in Hin.
  destruct Hentry as [-> | ->]; vm_compute in Hin;
    repeat (destruct Hin as [Hin | Hin]; [discriminate Hin |]);
    exact Hin.
Qed.

(** C2, amended: for a selected disc image the menu opens with Properties,
    Wiki and a separator, then has the default-disc entry, then Decompress
    when the blob type is GCZ, Compress when it is PLAIN and nothing for
    another format, then a separator; Decompress and Compress occur nowhere
    else in the menu. *)
Theorem ShowContextMenu_disc_block
  (w : GameList) (disk : Disk) (running : bool) (game : QString) :
  selects w game ->
  is_disc (GetPlatformID (disk game)) ->
  exists after,
    ShowContextMenu w disk running =
      Some [QMenu_exec
              ([addAction "Properties" SLOT_OpenProperties;
                addAction "Wiki" SLOT_OpenWiki; Separator]
               ++ [default_iso_entry]
               ++ codec_entries (GetBlobType (disk game))
               ++ [Separator] ++ after)] /\
    ~ In decompress_entry after /\ ~ In compress_entry after.
Proof.
  intros Hsel Hdisc.
  rewrite (ShowContextMenu_selected w disk running game Hsel).
  unfold build_menu, disc_entries.
  destruct Hdisc as [Hp | Hp]; rewrite Hp;
    destruct (GetBlobType (disk game)); simpl;
    eexists; (split; [reflexivity |]);
    split; simpl; intros Hin;
    repeat (destruct Hin as [Hin | Hin]; [discriminate Hin |]);
    exact Hin.
Qed.

Lemma ShowContextMenu_disc_block_witness :
  selects Shelf.on_melee_gcz Shelf.melee_gcz /\
  is_disc (GetPlatformID (Shelf.disk Shelf.melee_gcz)) /\
  exists after,
    ShowContextMenu Shelf.on_melee_gcz Shelf.disk false =
      Some [QMenu_exec
              ([addAction "Properties" SLOT_OpenProperties;
                addAction "Wiki" SLOT_OpenWiki; Separator]
               ++ [default_iso_entry]
               ++ codec_entries (GetBlobType (Shelf.disk Shelf.melee_gcz))
               ++ [Separator] ++ after)] /\
    ~ In decompress_entry after /\ ~ In compress_entry after.
Proof.
  split; [split; reflexivity |].
  split; [left; reflexivity |].
  apply (ShowContextMenu_disc_block Shelf.on_melee_gcz Shelf.disk false
           Shelf.melee_gcz).
  - split; reflexivity.
  - left; reflexivity.
Defined.

(** *** The package entries and the emulation signals *)

Lemma wad_menu_shape (disk : Disk) (running : bool) (game : QString) :
  GetPlatformID (disk game) = WII_WAD ->
  build_menu disk running game =
    [addAction "Properties" SLOT_OpenProperties;
     addAction "Wiki" SLOT_OpenWiki; Separator]
    ++ wad_entries running game
    ++ [addAction "Open Wii save folder" SLOT_OpenSaveFolder;
        addAction "Export Wii save (Experimental)" SLOT_ExportWiiSave;
        Separator;
        addAction "Open Containing Folder" SLOT_OpenContainingFolder;
        addAction "Remove File" SLOT_DeleteFile].
Proof. intros Hp. unfold build_menu. rewrite Hp. reflexivity. Qed.

(** When the menu is built, both package entries follow the emulation
    state alone. *)
Lemma wad_entries_enabled_at_build (disk : Disk) (running : bool)
  (game : QString) :
  GetPlatformID (disk game) = WII_WAD ->
  entry_enabled SLOT_InstallWAD (build_menu disk running game)
    = Some (negb running) /\
  entry_enabled SLOT_UninstallWAD (build_menu disk running game)
    = Some (negb running).
Proof.
  intros Hp. rewrite (wad_menu_shape disk running game Hp).
  split; reflexivity.
Qed.

(** When emulation starts, both entries are disabled. *)
Lemma wad_entries_enabled_after_start (disk now : Disk) (running : bool)
  (game : QString) :
  GetPlatformID (disk game) = WII_WAD ->
  let menu := emit_EmulationStarted now (build_menu disk running game) in
  entry_enabled SLOT_InstallWAD menu = Some false /\
  entry_enabled SLOT_UninstallWAD menu = Some false.
Proof.
  intros Hp. rewrite (wad_menu_shape disk running game Hp).
  split; reflexivity.
Qed.

(** When emulation stops, Install is enabled and Uninstall follows the
    install status read at that moment. *)
Lemma wad_entries_enabled_after_stop (disk now : Disk) (running : bool)
  (game : QString) :
  GetPlatformID (disk game) = WII_WAD ->
  let menu := emit_EmulationStopped now (build_menu disk running game) in
  entry_enabled SLOT_InstallWAD menu = Some true /\
  entry_enabled SLOT_UninstallWAD menu = Some (IsInstalled (now game)).
Proof.
  intros Hp. rewrite (wad_menu_shape disk running game Hp).
  split; reflexivity.
Qed.

(** C3, evaluated where it breaks: for a package that is not installed,
    with emulation not running, the menu is built with the Uninstall entry
    enabled; only the handler of the stop signal looks at the install
    status. *)
Theorem ShowContextMenu_uninstall_enabled_for_uninstalled_wad :
  selects Shelf.on_channel_wad Shelf.channel_wad /\
  GetPlatformID (Shelf.disk Shelf.channel_wad) = WII_WAD /\
  IsInstalled (Shelf.disk Shelf.channel_wad) = false /\
  ShowContextMenu Shelf.on_channel_wad Shelf.disk false =
    Some [QMenu_exec (build_menu Shelf.disk false Shelf.channel_wad)] /\
  entry_enabled SLOT_UninstallWAD
    (build_menu Shelf.disk false Shelf.channel_wad) = Some true /\
  entry_enabled SLOT_UninstallWAD
    (emit_EmulationStopped Shelf.disk
       (build_menu Shelf.disk false Shelf.channel_wad)) = Some false.
Proof. repeat split; reflexivity. Qed.

(** ** Selection resolution *)

Lemma at_index_in_range {A} (l : list A) (i : Z) :
  0 <= i < Z.of_nat (length l) -> exists x, at_index l i = Some x.
Proof.
  intros [Hlo Hhi]. unfold at_index.
  destruct (Z.ltb_spec i 0) as [Hneg | _]; [lia |].
  destruct (lookup_lt_is_Some_2 l (Z.to_nat i)) as [x Hx]; [lia |].
  exists x. exact Hx.
Qed.

Lemma at_index_Forall {A} (P : A -> Prop) (l : list A) (i : Z) (x : A) :
  Forall P l -> at_index l i = Some x -> P x.
Proof.
  unfold at_index. intros HP Hx.
  destruct (i <? 0); [discriminate |].
  exact (Forall_lookup_1 P l _ x HP Hx).
Qed.

(** Through a proxy whose rows are catalog rows, a selected index of the
    view resolves to a path. *)
Lemma resolve_through_proxy (m : GameListModel)
  (proxy : QSortFilterProxyModel) (first : QModelIndex)
  (rest : list QModelIndex) :
  proxy_ok m proxy -> selection_ok proxy (first :: rest) ->
  exists catalog_row path,
    at_index proxy (row first) = Some catalog_row /\
    at_index (m_games m) catalog_row = Some path /\
    GetPath m (row (mapToSource proxy first)) = Some path.
Proof.
  intros Hproxy Hsel.
  apply Forall_cons_1 in Hsel as [Hfirst _].
  destruct (at_index_in_range proxy (row first) Hfirst) as [s Hs].
  pose proof (at_index_Forall _ proxy (row first) s Hproxy Hs) as Hrange.
  destruct (at_index_in_range (m_games m) s Hrange) as [path Hpath].
  exists s, path. split; [exact Hs |]. split; [exact Hpath |].
  unfold mapToSource, GetPath. rewrite Hs. simpl. exact Hpath.
Qed.

(** With the empty-state label showing, the catalog is empty and so are
    both views. *)
Lemma nothing_selected_on_empty_page (w : GameList) :
  GameList_ok w -> currentWidget w = m_empty -> list_selection w = [].
Proof.
  intros Hok Hpage.
  pose proof (page_ok w Hok) as Hsame.
  rewrite currentWidget_ConsiderViewChange, Hpage in Hsame.
  assert (Hrows : rowCount (m_model w) <= 0).
  { destruct (Z.ltb_spec 0 (rowCount (m_model w))) as [Hpos | Hle];
      [| exact Hle].
    destruct (m_prefer_table w); discriminate Hsame. }
  assert (Hproxy : m_list_proxy w = []).
  { pose proof (list_proxy_ok w Hok) as Hp.
    destruct (m_list_proxy w) as [| s proxy]; [reflexivity |].
    apply Forall_cons_1 in Hp as [Hs _]. lia. }
  pose proof (list_selection_ok w Hok) as Hs.
  rewrite Hproxy in Hs.
  destruct (list_selection w) as [| idx sel]; [reflexivity |].
  apply Forall_cons_1 in Hs as [Hidx _]. simpl in Hidx. lia.
Qed.

(** C5: selection resolution returns empty when the active view has no
    selected row; otherwise it maps the first selected row of the active
    view through that view's proxy to a catalog row and returns the path
    of that row. *)
Theorem GetSelectedGame_resolves (w : GameList) :
  GameList_ok w ->
  match active_selection w with
  | [] => GetSelectedGame w = Some EmptyString
  | first :: _ =>
      exists catalog_row path,
        at_index (active_proxy w) (row first) = Some catalog_row /\
        at_index (m_games (m_model w)) catalog_row = Some path /\
        GetSelectedGame w = Some path
  end.
Proof.
  intros Hok.
  unfold active_selection, active_proxy, active_view, GetSelectedGame.
  destruct (currentWidget w) eqn:Hpage; simpl.
  - destruct (table_selection w) as [| first rest] eqn:Hsel; [reflexivity |].
    apply (resolve_through_proxy (m_model w) (m_table_proxy w) first rest).
    + exact (table_proxy_ok w Hok).
    + rewrite <- Hsel. exact (table_selection_ok w Hok).
  - destruct (list_selection w) as [| first rest] eqn:Hsel; [reflexivity |].
    apply (resolve_through_proxy (m_model w) (m_list_proxy w) first rest).
    + exact (list_proxy_ok w Hok).
    + rewrite <- Hsel. exact (list_selection_ok w Hok).
  - rewrite (nothing_selected_on_empty_page w Hok Hpage). reflexivity.
Qed.

Lemma Shelf_with_table_row_ok (table_row : Z) :
  0 <= table_row < 4 -> GameList_ok (Shelf.with_table_row table_row).
Proof.
  intros Hrow. split.
  - unfold proxy_ok, rowCount. simpl. repeat constructor; lia.
  - unfold proxy_ok, rowCount. simpl. repeat constructor; lia.
  - unfold selection_ok. simpl. repeat constructor; simpl; lia.
  - unfold selection_ok. simpl. constructor.
  - reflexivity.
Qed.

Lemma GetSelectedGame_resolves_witness :
  GameList_ok Shelf.on_kart_iso /\
  exists catalog_row path,
    at_index (active_proxy Shelf.on_kart_iso) 1 = Some catalog_row /\
    at_index (m_games (m_model Shelf.on_kart_iso)) catalog_row = Some path /\
    GetSelectedGame Shelf.on_kart_iso = Some path.
Proof.
  assert (Hok : GameList_ok Shelf.on_kart_iso).
  { apply Shelf_with_table_row_ok. lia. }
  split; [exact Hok |].
  exact (GetSelectedGame_resolves Shelf.on_kart_iso Hok).
Defined.

(** ** Removing a file *)

Lemma FindGame_splits (path : QString) (games : list QString) :
  In path games ->
  exists above below,
    games = above ++ path :: below /\ ~ In path above /\
    FindGame path games = Some (length above).
Proof.
  induction games as [| g games IH]; intros Hin; [destruct Hin |].
  simpl. destruct (decide (g = path)) as [-> | Hne].
  - exists [], games. split; [reflexivity |]. split; [intros [] | reflexivity].
  - destruct Hin as [Heq | Hin]; [contradiction |].
    destruct (IH Hin) as (above & below & Hgames & Hnot & Hfind).
    exists (g :: above), below. split; [rewrite Hgames; reflexivity |].
    split.
    + intros [Heq | Hin']; [contradiction | exact (Hnot Hin')].
    + rewrite Hfind. reflexivity.
Qed.

Lemma delete_middle {A} (above below : list A) (x : A) :
  delete (length above) (above ++ x :: below) = above ++ below.
Proof. induction above as [| a above IH]; simpl; [| rewrite IH]; reflexivity. Qed.

Lemma m_games_ConsiderViewChange (w : GameList) :
  m_games (m_model (ConsiderViewChange w)) = m_games (m_model w).
Proof.
  unfold ConsiderViewChange.
  destruct (0 <? rowCount (m_model w)); [destruct (m_prefer_table w) |];
    reflexivity.
Qed.

(** Removing a game that is in the catalog takes out its first entry and
    nothing else. *)
Lemma RemoveGame_takes_one (path : QString) (w : GameList) :
  In path (m_games (m_model w)) ->
  exists above below,
    m_games (m_model w) = above ++ path :: below /\ ~ In path above /\
    m_games (m_model (RemoveGame path w)) = above ++ below.
Proof.
  intros Hin.
  destruct (FindGame_splits path _ Hin) as (above & below & Hg & Hnot & Hfind).
  exists above, below. split; [exact Hg |]. split; [exact Hnot |].
  unfold RemoveGame. rewrite Hfind, m_games_ConsiderViewChange. simpl.
  rewrite Hg. apply delete_middle.
Qed.

Lemma at_index_In {A} (l : list A) (i : Z) (x : A) :
  at_index l i = Some x -> In x l.
Proof.
  unfold at_index. destruct (i <? 0); [discriminate |].
  intros Hx. apply list_elem_of_In. exact (list_elem_of_lookup_2 l _ x Hx).
Qed.

(** A game handed over by selection resolution has a catalog entry. *)
Lemma selects_In (w : GameList) (game : QString) :
  selects w game -> In game (m_games (m_model w)).
Proof.
  intros [Hsel Hne]. unfold GetSelectedGame in Hsel.
  destruct (decide (currentWidget w = m_table)).
  - destruct (table_selection w) as [| first rest].
    + injection Hsel as <-. discriminate Hne.
    + exact (at_index_In _ _ _ Hsel).
  - destruct (list_selection w) as [| first rest].
    + injection Hsel as <-. discriminate Hne.
    + exact (at_index_In _ _ _ Hsel).
Qed.

(** The runs of the loop: some Retry answers, then either Abort or a
    delete that succeeds. *)
Lemma Deletion_shapes (attempts : Deletion) :
  answers_offered attempts ->
  exists n,
    attempts = retrying n Delete_succeeds \/
    exists rest, attempts = retrying n (Delete_fails Abort rest).
Proof.
  induction attempts as [| answer next IH]; intros Hoffered.
  - exists O. left. reflexivity.
  - destruct Hoffered as [Hanswer Hnext].
    destruct Hanswer as [<- | [<- | []]].
    + destruct (IH Hnext) as [n [Hn | [rest Hn]]].
      * exists (S n). left. simpl. rewrite <- Hn. reflexivity.
      * exists (S n). right. exists rest. simpl. rewrite <- Hn. reflexivity.
    + exists O. right. exists next. reflexivity.
Qed.

Lemma delete_loop_aborted (game : QString) (w : GameList) (n : nat)
  (rest : Deletion) :
  delete_loop game (retrying n (Delete_fails Abort rest)) w =
    (w, failed_attempts game (S n)).
Proof.
  induction n as [| n IH]; simpl.
  - reflexivity.
  - simpl in IH. rewrite IH. reflexivity.
Qed.

Lemma delete_loop_succeeded (game : QString) (w : GameList) (n : nat) :
  delete_loop game (retrying n Delete_succeeds) w =
    (RemoveGame game w, failed_attempts game n ++ [File_Delete game]).
Proof.
  induction n as [| n IH]; simpl.
  - reflexivity.
  - rewrite IH. reflexivity.
Qed.

(** C4: a confirmed delete runs some number [n] of failed attempts that the
    user answers with Retry, and then either fails once more and is
    aborted, with the catalog left as it was, or succeeds on attempt
    [n + 1], with exactly one catalog entry removed, the one of the deleted
    game, and nothing attempted after it.  Each attempt after the first
    follows a Retry answer. *)
Theorem DeleteFile_confirmed
  (w : GameList) (game : QString) (attempts : Deletion) :
  selects w game ->
  answers_offered attempts ->
  exists n,
    (exists rest,
       attempts = retrying n (Delete_fails Abort rest) /\
       DeleteFile w Yes attempts =
         Some (w, QMessageBox_exec confirm_dialog
                  :: failed_attempts game (S n)))
    \/
    (attempts = retrying n Delete_succeeds /\
     exists w' above below,
       DeleteFile w Yes attempts =
         Some (w', QMessageBox_exec confirm_dialog
                   :: failed_attempts game n ++ [File_Delete game]) /\
       m_games (m_model w) = above ++ game :: below /\
       ~ In game above /\
       m_games (m_model w') = above ++ below).
Proof.
  intros Hsel Hoffered.
  pose proof (selects_In w game Hsel) as Hin.
  destruct Hsel as [Hsel _].
  destruct (Deletion_shapes attempts Hoffered) as [n [Hn | [rest Hn]]];
    exists n; [right | left].
  - split; [exact Hn |].
    destruct (RemoveGame_takes_one game w Hin)
      as (above & below & Hg & Hnot & Hg').
    exists (RemoveGame game w), above, below.
    split; [| split; [exact Hg | split; [exact Hnot | exact Hg']]].
    unfold DeleteFile. rewrite Hsel, Hn. simpl.
    rewrite delete_loop_succeeded. reflexivity.
  - exists rest. split; [exact Hn |].
    unfold DeleteFile. rewrite Hsel, Hn. simpl mbind.
    change (decide (Yes = Yes))
      with (left (eq_refl Yes) : Decision (Yes = Yes)).
    cbv iota. rewrite delete_loop_aborted. reflexivity.
Qed.

Lemma DeleteFile_confirmed_witness :
  selects Shelf.on_kart_iso Shelf.kart_iso /\
  answers_offered (Delete_fails Retry (Delete_fails Retry Delete_succeeds)) /\
  exists n,
    (exists rest,
       Delete_fails Retry (Delete_fails Retry Delete_succeeds)
         = retrying n (Delete_fails Abort rest) /\
       DeleteFile Shelf.on_kart_iso Yes
         (Delete_fails Retry (Delete_fails Retry Delete_succeeds)) =
         Some (Shelf.on_kart_iso,
               QMessageBox_exec confirm_dialog
               :: failed_attempts Shelf.kart_iso (S n)))
    \/
    (Delete_fails Retry (Delete_fails Retry Delete_succeeds)
       = retrying n Delete_succeeds /\
     exists w' above below,
       DeleteFile Shelf.on_kart_iso Yes
         (Delete_fails Retry (Delete_fails Retry Delete_succeeds)) =
         Some (w', QMessageBox_exec confirm_dialog
                   :: failed_attempts Shelf.kart_iso n
                      ++ [File_Delete Shelf.kart_iso]) /\
       m_games (m_model Shelf.on_kart_iso)
         = above ++ Shelf.kart_iso :: below /\
       ~ In Shelf.kart_iso above /\
       m_games (m_model w') = above ++ below).
Proof.
  split; [split; reflexivity |].
  split; [simpl; tauto |].
  apply (DeleteFile_confirmed Shelf.on_kart_iso Shelf.kart_iso
           (Delete_fails Retry (Delete_fails Retry Delete_succeeds))).
  - split; reflexivity.
  - simpl. tauto.
Defined.

(** ** The compression callback *)

(** C10: with a null user-data pointer the callback answers false and
    leaves every dialog as it was. *)
Theorem CompressCB_nullptr (text : string) (percent : float) (heap : Heap) :
  CompressCB text percent nullptr heap = Some (false, heap).
Proof. reflexivity. Qed.

(** What [setValue] leaves alone; a click stays pending only on a dialog
    that is not modal. *)
Lemma setValue_keeps (progress : Z) (d : QProgressDialog) :
  labelText (setValue progress d) = labelText d /\
  cancelButtonText (setValue progress d) = cancelButtonText d /\
  minimum (setValue progress d) = minimum d /\
  maximum (setValue progress d) = maximum d /\
  windowModality (setValue progress d) = windowModality d /\
  autoReset (setValue progress d) = autoReset d /\
  cancel_clicked (setValue progress d) =
    cancel_clicked d && negb (isModal d).
Proof.
  destruct d as [label button lo hi v modality auto flag clicked].
  unfold setValue, processEvents, bar_setValue, cancel, reset, isModal. cbn.
  destruct (((hi <? progress) || (progress <? lo))
            && negb ((hi =? 0) && (lo =? 0)));
    destruct modality; destruct clicked; cbn;
    destruct ((progress =? hi) && auto); cbn; auto 10.
Qed.

(** The dialog is canceled after [setValue] when it was canceled before or
    gets a click delivered, unless the progress is the maximum and the
    dialog resets itself. *)
Lemma setValue_wasCanceled (progress : Z) (d : QProgressDialog) :
  wasCanceled (setValue progress d) =
    (canceled d || click_delivered d)
    && negb ((progress =? maximum d) && autoReset d).
Proof.
  destruct d as [label button lo hi v modality auto flag clicked].
  unfold setValue, processEvents, bar_setValue, cancel, reset,
    click_delivered, wasCanceled, isModal. cbn.
  destruct (((hi <? progress) || (progress <? lo))
            && negb ((hi =? 0) && (lo =? 0)));
    destruct modality; destruct clicked; cbn;
    destruct ((progress =? hi) && auto); cbn;
    destruct flag; reflexivity.
Qed.



Lemma CompressCB_valid (text : string) (percent : float) (ptr : VoidPtr)
  (heap : Heap) (d : QProgressDialog) (progress : Z) :
  ptr <> nullptr ->
  heap !! ptr = Some d ->
  scaled_progress percent = Some progress ->
  CompressCB text percent ptr heap =
    Some (negb (wasCanceled (setValue progress d)),
          <[ptr := setValue progress d]> heap).
Proof.
  intros Hptr Hd Hprogress. unfold CompressCB.
  destruct (decide (ptr = nullptr)) as [Hnull | _]; [contradiction |].
  rewrite Hd. cbn [mbind option_bind].
  unfold scaled_progress in Hprogress. rewrite Hprogress. reflexivity.
Qed.


(** ** Scaling a fraction to a percentage *)











(** ** Compressing and decompressing *)

Lemma quiet_not_modal (trace : list Effect) :
  Forall quiet trace -> modal_result_dialogs trace = [].
Proof.
  induction 1 as [| e rest [_ Hresult] _ IH]; [reflexivity |].
  unfold modal_result_dialogs in *. cbn [List.filter]. rewrite IH.
  destruct e as [| box | | | | |]; try reflexivity.
  cbn in Hresult |- *. destruct (icon box); try reflexivity;
    discriminate Hresult.
Qed.

Lemma codec_call_not_modal (call : Effect) :
  is_codec_call call = true -> is_modal_result_dialog call = false.
Proof. destruct call; try discriminate; reflexivity. Qed.

Section CompressISO_facts.

Variable DecompressBlobToFile :
  QString -> QString -> CompressCB_t -> VoidPtr -> Heap ->
  option (bool * Heap).
Variable CompressFileToBlob :
  QString -> QString -> Z -> Z -> CompressCB_t -> VoidPtr -> Heap ->
  option (bool * Heap).

(** C7: when the file-save prompt yields an empty selection the handler
    returns with no codec call made and no result or error dialog
    shown, whatever the codec would have done. *)
Theorem CompressISO_empty_destination
  (w : GameList) (disk : Disk) (user : CompressISO_answers)
  (game : QString) :
  GetSelectedGame w = Some game ->
  isEmpty (getSaveFileName user) = true ->
  exists trace,
    CompressISO DecompressBlobToFile CompressFileToBlob w disk user
      = Some trace /\
    Forall quiet trace.
Proof.
  intros Hsel Hempty. unfold CompressISO.
  rewrite Hsel. cbn [mbind option_bind]. rewrite Hempty.
  destruct (negb (bool_decide (GetBlobType (disk game) = GCZ))
            && bool_decide (GetPlatformID (disk game) = WII_DISC));
    destruct (bool_decide (wii_warning_exec user = No));
    cbn [andb app]; eexists; (split; [reflexivity |]);
    repeat constructor.
Qed.

(** Past the warning and the prompt, the trace ends with the codec call
    and what tells how it went: the success box or the failure message. *)
Lemma CompressISO_past_prompt
  (w : GameList) (disk : Disk) (user : CompressISO_answers)
  (game : QString) (good : bool) (heap' : Heap) :
  GetSelectedGame w = Some game ->
  declined (disk game) user = false ->
  isEmpty (getSaveFileName user) = false ->
  codec_result DecompressBlobToFile CompressFileToBlob
    (disk game) game (getSaveFileName user) = Some (good, heap') ->
  exists before call,
    CompressISO DecompressBlobToFile CompressFileToBlob w disk user =
      Some (before
            ++ [call; if good then success_dialog else failure_dialog]) /\
    is_codec_call call = true /\
    Forall quiet before.
Proof.
  intros Hsel Hdeclined Hdst Hresult.
  unfold CompressISO, codec_result, declined in *.
  rewrite Hsel. cbn [mbind option_bind]. rewrite Hdst.
  destruct (bool_decide (GetBlobType (disk game) = GCZ)) eqn:Hgcz;
    destruct (bool_decide (GetPlatformID (disk game) = WII_DISC)) eqn:Hwii;
    cbn [negb andb] in Hdeclined |- *;
    try rewrite Hdeclined;
    rewrite Hresult; cbn [mbind option_bind fst app];
    match goal with
    | |- exists _ _, Some (?a :: ?b :: ?c :: ?d :: []) = _ /\ _ =>
        exists [a; b], c
    | |- exists _ _, Some (?b :: ?c :: ?d :: []) = _ /\ _ =>
        exists [b], c
    end;
    (split; [destruct good; reflexivity |]);
    (split; [reflexivity | repeat constructor]).
Qed.

(** C6: the claim fails where the codec call returns false.  An
    invocation that reaches the codec call runs one modal result dialog
    after it, the success box, when the call returned true; when the call
    returned false it runs none: the trace ends with the request to
    [QErrorMessage::showMessage], which does not wait for the user.
    Nothing before the call is a result dialog. *)
Theorem CompressISO_modal_result_dialogs
  (w : GameList) (disk : Disk) (user : CompressISO_answers)
  (game : QString) (good : bool) (heap' : Heap) :
  GetSelectedGame w = Some game ->
  declined (disk game) user = false ->
  isEmpty (getSaveFileName user) = false ->
  codec_result DecompressBlobToFile CompressFileToBlob
    (disk game) game (getSaveFileName user) = Some (good, heap') ->
  exists before call,
    CompressISO DecompressBlobToFile CompressFileToBlob w disk user =
      Some (before
            ++ [call;
                if good then QMessageBox_exec success_box
                else QErrorMessage_showMessage failure_message]) /\
    is_codec_call call = true /\
    Forall quiet before /\
    modal_result_dialogs
      (before
       ++ [call;
           if good then QMessageBox_exec success_box
           else QErrorMessage_showMessage failure_message])
    = (if good then [QMessageBox_exec success_box] else []).
Proof.
  intros Hsel Hdeclined Hdst Hresult.
  destruct (CompressISO_past_prompt w disk user game good heap'
              Hsel Hdeclined Hdst Hresult)
    as (before & call & Hrun & Hcall & Hquiet).
  exists before, call.
  split; [exact Hrun |]. split; [exact Hcall |]. split; [exact Hquiet |].
  unfold modal_result_dialogs. rewrite List.filter_app.
  fold (modal_result_dialogs before).
  rewrite (quiet_not_modal before Hquiet).
  cbn [app List.filter].
  rewrite (codec_call_not_modal call Hcall).
  destruct good; reflexivity.
Qed.

End CompressISO_facts.

(** While nobody asks to cancel, the codec of the spec reports to the end
    and answers with the outcome of its own work. *)
Lemma report_progress_runs_through (ptr : VoidPtr)
  (todo : list (float * bool)) :
  ptr <> nullptr ->
  Forall (fun r => reportable (fst r)) todo ->
  Forall (fun r => snd r = false) todo ->
  forall (heap : Heap) (d : QProgressDialog),
    heap !! ptr = Some d ->
    cancel_requested d = false ->
    exists heap', report_progress CompressCB ptr todo heap = Some (true, heap').
Proof.
  intros Hptr Hall.
  induction Hall as [| [percent clicked] rest [progress Hprogress] _ IH];
    intros Hquiet heap d Hd Hreq.
  - eexists. reflexivity.
  - apply Forall_cons_1 in Hquiet as [Hclicked Hquiet].
    simpl in Hclicked, Hprogress. subst clicked. simpl report_progress.
    rewrite (CompressCB_valid _ percent ptr heap d progress Hptr Hd Hprogress).
    unfold cancel_requested in Hreq.
    apply orb_false_iff in Hreq as [Hflag Hclick].
    assert (Hcanceled : wasCanceled (setValue progress d) = false).
    { rewrite setValue_wasCanceled. unfold click_delivered.
      rewrite Hflag, Hclick, andb_false_r. reflexivity. }
    rewrite Hcanceled.
    cbn [mbind option_bind fst snd andb negb].
    apply (IH Hquiet _ (setValue progress d)).
    + apply lookup_insert_eq.
    + destruct (setValue_keeps progress d)
        as (_ & _ & _ & _ & _ & _ & Hpending).
      unfold cancel_requested.
      change (canceled (setValue progress d))
        with (wasCanceled (setValue progress d)).
      rewrite Hcanceled, Hpending, Hclick. reflexivity.
Qed.







Lemma CompressISO_empty_destination_witness :
  GetSelectedGame Shelf.on_kart_iso = Some Shelf.kart_iso /\
  isEmpty (getSaveFileName Shelf.no_destination) = true /\
  exists trace,
    CompressISO (Shelf.silent_DecompressBlobToFile true)
      (Shelf.silent_CompressFileToBlob true)
      Shelf.on_kart_iso Shelf.disk Shelf.no_destination = Some trace /\
    Forall quiet trace.
Proof.
  split; [reflexivity |]. split; [reflexivity |].
  apply (CompressISO_empty_destination
           (Shelf.silent_DecompressBlobToFile true)
           (Shelf.silent_CompressFileToBlob true)
           Shelf.on_kart_iso Shelf.disk Shelf.no_destination Shelf.kart_iso);
    reflexivity.
Defined.

Lemma CompressISO_modal_result_dialogs_witness :
  GetSelectedGame Shelf.on_melee_gcz = Some Shelf.melee_gcz /\
  declined (Shelf.disk Shelf.melee_gcz) Shelf.to_out = false /\
  isEmpty (getSaveFileName Shelf.to_out) = false /\
  codec_result (Shelf.silent_DecompressBlobToFile false)
    (Shelf.silent_CompressFileToBlob false)
    (Shelf.disk Shelf.melee_gcz) Shelf.melee_gcz
    (getSaveFileName Shelf.to_out) = Some (false, Shelf.fresh_heap) /\
  exists before call,
    CompressISO (Shelf.silent_DecompressBlobToFile false)
      (Shelf.silent_CompressFileToBlob false)
      Shelf.on_melee_gcz Shelf.disk Shelf.to_out =
      Some (before ++ [call; QErrorMessage_showMessage failure_message]) /\
    is_codec_call call = true /\
    Forall quiet before /\
    modal_result_dialogs
      (before ++ [call; QErrorMessage_showMessage failure_message]) = [].
Proof.
  split; [reflexivity |]. split; [reflexivity |]. split; [reflexivity |].
  split; [reflexivity |].
  apply (CompressISO_modal_result_dialogs
           (Shelf.silent_DecompressBlobToFile false)
           (Shelf.silent_CompressFileToBlob false)
           Shelf.on_melee_gcz Shelf.disk Shelf.to_out Shelf.melee_gcz
           false Shelf.fresh_heap);
    reflexivity.
Defined.

(** ** The widget keeps itself in the states of [GameList_ok] *)

Lemma ConsiderViewChange_idempotent (w : GameList) :
  ConsiderViewChange (ConsiderViewChange w) = ConsiderViewChange w.
Proof.
  unfold ConsiderViewChange.
  destruct (0 <? rowCount (m_model w)) eqn:Hrows;
    [destruct (m_prefer_table w) eqn:Hpref |];
    simpl; rewrite Hrows; try rewrite Hpref; reflexivity.
Qed.

Lemma ConsiderViewChange_fields (w : GameList) :
  m_model (ConsiderViewChange w) = m_model w /\
  m_table_proxy (ConsiderViewChange w) = m_table_proxy w /\
  m_list_proxy (ConsiderViewChange w) = m_list_proxy w /\
  table_selection (ConsiderViewChange w) = table_selection w /\
  list_selection (ConsiderViewChange w) = list_selection w /\
  m_prefer_table (ConsiderViewChange w) = m_prefer_table w.
Proof.
  unfold ConsiderViewChange.
  destruct (0 <? rowCount (m_model w));
    [destruct (m_prefer_table w) eqn:Hpref |];
    repeat split; simpl; try reflexivity; exact Hpref.
Qed.

(** After [ConsiderViewChange] the page is right, whatever it was. *)
Lemma ConsiderViewChange_ok (w : GameList) :
  proxy_ok (m_model w) (m_table_proxy w) ->
  proxy_ok (m_model w) (m_list_proxy w) ->
  selection_ok (m_table_proxy w) (table_selection w) ->
  selection_ok (m_list_proxy w) (list_selection w) ->
  GameList_ok (ConsiderViewChange w).
Proof.
  intros Htp Hlp Hts Hls.
  destruct (ConsiderViewChange_fields w) as (Hm & Ht & Hl & Hst & Hsl & _).
  split.
  - rewrite Hm, Ht. exact Htp.
  - rewrite Hm, Hl. exact Hlp.
  - rewrite Ht, Hst. exact Hts.
  - rewrite Hl, Hsl. exact Hls.
  - rewrite ConsiderViewChange_idempotent. reflexivity.
Qed.

Lemma GameList_new_ok (s : Settings) : GameList_ok (GameList_new s).
Proof. apply ConsiderViewChange_ok; constructor. Qed.

Lemma SetPreferredView_ok (table : bool) (w : GameList) (s : Settings) :
  GameList_ok w -> GameList_ok (fst (SetPreferredView table w s)).
Proof.
  intros Hok. unfold SetPreferredView. simpl fst.
  apply ConsiderViewChange_ok; simpl.
  - exact (table_proxy_ok w Hok).
  - exact (list_proxy_ok w Hok).
  - exact (table_selection_ok w Hok).
  - exact (list_selection_ok w Hok).
Qed.

Lemma FindGame_lt (path : QString) (games : list QString) (entry : nat) :
  FindGame path games = Some entry -> (entry < length games)%nat.
Proof.
  revert entry. induction games as [| g games IH]; intros entry Hfind.
  - discriminate Hfind.
  - simpl in Hfind. destruct (decide (g = path)).
    + injection Hfind as <-. simpl. lia.
    + destruct (FindGame path games) as [k |]; [| discriminate Hfind].
      injection Hfind as <-. specialize (IH k eq_refl). simpl. lia.
Qed.

Lemma proxy_rowsRemoved_ok (games : list QString) (entry : nat)
  (proxy : QSortFilterProxyModel) :
  (entry < length games)%nat ->
  proxy_ok {| m_games := games |} proxy ->
  proxy_ok {| m_games := delete entry games |}
    (proxy_rowsRemoved (Z.of_nat entry) proxy).
Proof.
  intros Hentry Hproxy. unfold proxy_ok, proxy_rowsRemoved, rowCount in *.
  simpl in *.
  rewrite length_delete by (apply lookup_lt_is_Some_2; exact Hentry).
  apply Forall_fmap. apply Forall_forall. intros s Hs.
  apply list_elem_of_filter in Hs as [Hne Hs].
  rewrite Forall_forall in Hproxy. specialize (Hproxy s Hs).
  simpl. destruct (Z.ltb_spec (Z.of_nat entry) s); lia.
Qed.

Lemma filter_split_length (r : Z) (l : list Z) :
  (length (filter (fun s => s = r) l) + length (filter (fun s => s <> r) l)
   = length l)%nat.
Proof.
  induction l as [| s l IH]; [reflexivity |].
  destruct (decide (s = r)) as [Heq | Hne].
  - rewrite filter_cons_True by exact Heq.
    rewrite filter_cons_False by (intros H; exact (H Heq)).
    simpl. lia.
  - rewrite filter_cons_False by exact Hne.
    rewrite filter_cons_True by exact Hne.
    simpl. lia.
Qed.

Lemma selection_rowsRemoved_ok (r : Z) (proxy : QSortFilterProxyModel)
  (selection : list QModelIndex) :
  selection_ok proxy selection ->
  selection_ok (proxy_rowsRemoved r proxy)
    (selection_rowsRemoved r proxy selection).
Proof.
  intros Hsel. unfold selection_ok, selection_rowsRemoved, proxy_rowsRemoved in *.
  rewrite length_fmap.
  apply Forall_forall. intros idx' Hin.
  apply list_elem_of_omap in Hin as (idx & Hidx & Hmap).
  rewrite Forall_forall in Hsel. specialize (Hsel idx Hidx).
  unfold at_index in Hmap.
  destruct (Z.ltb_spec (row idx) 0) as [Hneg | Hnonneg]; [lia |].
  destruct (proxy !! Z.to_nat (row idx)) as [s |] eqn:Hs;
    [| discriminate Hmap].
  destruct (decide (s = r)) as [Heq | Hne]; [discriminate Hmap |].
  injection Hmap as <-. simpl.
  pose proof (take_drop_middle proxy _ s Hs) as Hsplit.
  pose proof (filter_split_length r (take (Z.to_nat (row idx)) proxy)) as Hlen.
  rewrite length_take in Hlen.
  assert (Hshort :
            (length (filter (fun s' => s' <> r) (take (Z.to_nat (row idx)) proxy))
             < length (filter (fun s' => s' <> r) proxy))%nat).
  { rewrite <- Hsplit at 2. rewrite filter_app, length_app.
    rewrite filter_cons_True by exact Hne. simpl. lia. }
  lia.
Qed.

Lemma RemoveGame_ok (path : QString) (w : GameList) :
  GameList_ok w -> GameList_ok (RemoveGame path w).
Proof.
  intros Hok. unfold RemoveGame.
  destruct (FindGame path (m_games (m_model w))) as [entry |] eqn:Hfind;
    [| exact Hok].
  pose proof (FindGame_lt _ _ _ Hfind) as Hentry.
  pose proof (table_proxy_ok w Hok) as Htp.
  pose proof (list_proxy_ok w Hok) as Hlp.
  destruct (m_model w) as [games]. simpl in *.
  apply ConsiderViewChange_ok; simpl.
  - apply proxy_rowsRemoved_ok; assumption.
  - apply proxy_rowsRemoved_ok; assumption.
  - apply selection_rowsRemoved_ok. exact (table_selection_ok w Hok).
  - apply selection_rowsRemoved_ok. exact (list_selection_ok w Hok).
Qed.

Lemma delete_loop_ok (game : QString) (attempts : Deletion) (w : GameList) :
  GameList_ok w -> GameList_ok (fst (delete_loop game attempts w)).
Proof.
  intros Hok. induction attempts as [| answer next IH]; simpl.
  - apply RemoveGame_ok. exact Hok.
  - destruct (decide (answer = Abort)); [exact Hok |].
    destruct (delete_loop game next w) as [w' trace]. exact IH.
Qed.

Lemma DeleteFile_ok (w w' : GameList) (answer : StandardButton)
  (attempts : Deletion) (trace : list Effect) :
  GameList_ok w ->
  DeleteFile w answer attempts = Some (w', trace) ->
  GameList_ok w'.
Proof.
  intros Hok Hrun. unfold DeleteFile in Hrun.
  destruct (GetSelectedGame w) as [game |]; [| discriminate Hrun].
  simpl in Hrun. destruct (decide (answer = Yes)).
  - pose proof (delete_loop_ok game attempts w Hok) as Hloop.
    destruct (delete_loop game attempts w) as [w1 t1].
    injection Hrun as <- _. exact Hloop.
  - injection Hrun as <- _. exact Hok.
Qed.


(** * Further properties of the widget *)

(** ** Re-evaluating the view *)

(** X1: the view-selection recomputation changes nothing but the page
    shown, and running it a second time changes nothing at all. *)
Theorem ConsiderViewChange_stable (w : GameList) :
  ConsiderViewChange w
    = setCurrentWidget (currentWidget (ConsiderViewChange w)) w /\
  ConsiderViewChange (ConsiderViewChange w) = ConsiderViewChange w.
Proof.
  split; [| apply ConsiderViewChange_idempotent].
  unfold ConsiderViewChange.
  destruct (0 <? rowCount (m_model w)); [destruct (m_prefer_table w) |];
    reflexivity.
Qed.

(** X2: setting the preference and then setting it back restores the
    widget and the settings, when the page shown was the one the
    recomputation picks and the settings held the widget's preference. *)
Theorem SetPreferredView_round_trip
  (table : bool) (w : GameList) (s : Settings) :
  currentWidget w = currentWidget (ConsiderViewChange w) ->
  PreferredView s = m_prefer_table w ->
  SetPreferredView (m_prefer_table w)
    (fst (SetPreferredView table w s)) (snd (SetPreferredView table w s))
  = (w, s).
Proof.
  intros Hpage Hpref.
  destruct w as [m tp lp ts ls pref page]. destruct s as [stored].
  simpl in Hpref. subst stored.
  unfold SetPreferredView, ConsiderViewChange in *. simpl in *.
  destruct (0 <? rowCount m) eqn:Hrows; destruct table; destruct pref;
    simpl in *; rewrite ?Hrows; simpl; subst page; reflexivity.
Qed.

Lemma SetPreferredView_round_trip_witness :
  currentWidget Shelf.on_kart_iso
    = currentWidget (ConsiderViewChange Shelf.on_kart_iso) /\
  PreferredView {| PreferredView := true |}
    = m_prefer_table Shelf.on_kart_iso /\
  SetPreferredView (m_prefer_table Shelf.on_kart_iso)
    (fst (SetPreferredView false Shelf.on_kart_iso {| PreferredView := true |}))
    (snd (SetPreferredView false Shelf.on_kart_iso {| PreferredView := true |}))
  = (Shelf.on_kart_iso, {| PreferredView := true |}).
Proof.
  split; [reflexivity |]. split; [reflexivity |].
  apply (SetPreferredView_round_trip false Shelf.on_kart_iso
           {| PreferredView := true |}); reflexivity.
Defined.

(** X3: after the preference is set to the icon list, the selected game is
    the one selected in the list view; what is selected in the table plays
    no part, and with nothing selected in the list the result is empty. *)
Theorem SetPreferredView_list_reads_list (w : GameList) (s : Settings) :
  GetSelectedGame (fst (SetPreferredView false w s)) =
    match list_selection w with
    | first :: _ =>
        GetPath (m_model w) (row (mapToSource (m_list_proxy w) first))
    | [] => Some EmptyString
    end.
Proof.
  unfold SetPreferredView, ConsiderViewChange. simpl fst. simpl.
  destruct (0 <? rowCount (m_model w)); reflexivity.
Qed.

(** X4: in a state the widget keeps itself in, selection resolution is
    defined, and what it returns is empty when the view it reads has no
    selected index and a path of the catalog otherwise. *)
Theorem GetSelectedGame_in_catalog (w : GameList) :
  GameList_ok w ->
  exists path,
    GetSelectedGame w = Some path /\
    (current_selection w = [] -> path = EmptyString) /\
    (current_selection w <> [] -> In path (m_games (m_model w))).
Proof.
  intros Hok. unfold GetSelectedGame, current_selection.
  destruct (decide (currentWidget w = m_table)) as [Htable | Hother].
  - destruct (table_selection w) as [| first rest] eqn:Hsel.
    + exists EmptyString. split; [reflexivity |]. split; [reflexivity |].
      intros Hne; contradiction.
    + destruct (resolve_through_proxy (m_model w) (m_table_proxy w) first rest)
        as (r & path & _ & Hpath & Hget).
      * exact (table_proxy_ok w Hok).
      * rewrite <- Hsel. exact (table_selection_ok w Hok).
      * exists path. split; [exact Hget |]. split; [discriminate |].
        intros _. exact (at_index_In _ _ _ Hpath).
  - destruct (list_selection w) as [| first rest] eqn:Hsel.
    + exists EmptyString. split; [reflexivity |]. split; [reflexivity |].
      intros Hne; contradiction.
    + destruct (resolve_through_proxy (m_model w) (m_list_proxy w) first rest)
        as (r & path & _ & Hpath & Hget).
      * exact (list_proxy_ok w Hok).
      * rewrite <- Hsel. exact (list_selection_ok w Hok).
      * exists path. split; [exact Hget |]. split; [discriminate |].
        intros _. exact (at_index_In _ _ _ Hpath).
Qed.

Lemma GetSelectedGame_in_catalog_witness :
  GameList_ok Shelf.on_melee_gcz /\
  exists path,
    GetSelectedGame Shelf.on_melee_gcz = Some path /\
    (current_selection Shelf.on_melee_gcz = [] -> path = EmptyString) /\
    (current_selection Shelf.on_melee_gcz <> [] ->
     In path (m_games (m_model Shelf.on_melee_gcz))).
Proof.
  assert (Hok : GameList_ok Shelf.on_melee_gcz).
  { apply Shelf_with_table_row_ok. lia. }
  split; [exact Hok |].
  exact (GetSelectedGame_in_catalog Shelf.on_melee_gcz Hok).
Defined.

(** X5: only the row of the first selected index counts: with the same
    row first, any column and any further selected indexes give the same
    game. *)
Theorem GetSelectedGame_first_row_only
  (w : GameList) (first : QModelIndex) (rest rest' : list QModelIndex)
  (column' : Z) :
  current_selection w = first :: rest ->
  GetSelectedGame
    (with_current_selection
       ({| row := row first; column := column' |} :: rest') w)
  = GetSelectedGame w.
Proof.
  unfold current_selection, with_current_selection, GetSelectedGame.
  simpl currentWidget.
  destruct (decide (currentWidget w = m_table)); simpl;
    intros ->; unfold mapToSource; simpl;
    destruct (at_index _ (row first)); reflexivity.
Qed.

Lemma GetSelectedGame_first_row_only_witness :
  current_selection Shelf.on_kart_iso
    = {| row := 1; column := 0 |} :: [{| row := 1; column := 1 |}] /\
  GetSelectedGame
    (with_current_selection
       ({| row := 1; column := 5 |} :: [{| row := 3; column := 0 |}])
       Shelf.on_kart_iso)
  = GetSelectedGame Shelf.on_kart_iso.
Proof.
  split; [reflexivity |].
  apply (GetSelectedGame_first_row_only Shelf.on_kart_iso
           {| row := 1; column := 0 |} [{| row := 1; column := 1 |}]
           [{| row := 3; column := 0 |}] 5).
  reflexivity.
Defined.

(** X6: a widget as constructed is in a state it keeps itself in, shows
    the empty page whatever the stored preference, has no selected game,
    and answers a context-menu request with nothing. *)
Theorem GameList_new_empty (s : Settings) (disk : Disk) (running : bool) :
  GameList_ok (GameList_new s) /\
  active_view (GameList_new s) = Empty /\
  m_prefer_table (GameList_new s) = PreferredView s /\
  GetSelectedGame (GameList_new s) = Some EmptyString /\
  ShowContextMenu (GameList_new s) disk running = Some [].
Proof.
  split; [apply GameList_new_ok |]. repeat split; reflexivity.
Qed.


(** ** The shape of the context menu *)

(** X7: in every menu that is built, no separator comes first, comes last
    or stands next to another separator. *)
Theorem build_menu_separators_apart
  (disk : Disk) (running : bool) (game : QString) :
  starts_with_action (build_menu disk running game) = true /\
  separators_apart (build_menu disk running game) = true.
Proof.
  unfold build_menu, disc_entries.
  destruct (GetPlatformID (disk game)); destruct (GetBlobType (disk game));
    split; reflexivity.
Qed.

(** X8: the menu has the Install and the Uninstall entry exactly for a
    WAD, and the two save entries exactly for a WAD or a Wii disc. *)
Theorem build_menu_package_and_save_entries
  (disk : Disk) (running : bool) (game : QString) :
  let menu := build_menu disk running game in
  let platform := GetPlatformID (disk game) in
  (offers SLOT_InstallWAD menu = true <-> platform = WII_WAD) /\
  (offers SLOT_UninstallWAD menu = true <-> platform = WII_WAD) /\
  (offers SLOT_OpenSaveFolder menu = true <->
     platform = WII_WAD \/ platform = WII_DISC) /\
  (offers SLOT_ExportWiiSave menu = true <->
     platform = WII_WAD \/ platform = WII_DISC).
Proof.
  unfold build_menu, disc_entries.
  destruct (GetPlatformID (disk game)); destruct (GetBlobType (disk game));
    vm_compute; intuition congruence.
Qed.

(** X9: the menu has the default-disc entry exactly for a GameCube or Wii
    disc, the Compress entry exactly for such a disc stored PLAIN and the
    Decompress entry exactly for such a disc stored GCZ; a WAD gets none of
    them whatever its blob type. *)
Theorem build_menu_disc_entries
  (disk : Disk) (running : bool) (game : QString) :
  let menu := build_menu disk running game in
  let platform := GetPlatformID (disk game) in
  let blob_type := GetBlobType (disk game) in
  (offers SLOT_SetDefaultISO menu = true <-> is_disc platform) /\
  (offers SLOT_CompressISO menu = true <->
     is_disc platform /\ blob_type = PLAIN) /\
  (offers SLOT_DecompressISO menu = true <->
     is_disc platform /\ blob_type = GCZ).
Proof.
  unfold build_menu, disc_entries, is_disc.
  destruct (GetPlatformID (disk game)); destruct (GetBlobType (disk game));
    vm_compute; intuition congruence.
Qed.

(** ** The emulation signals *)

Lemma build_menu_with_wad_flags
  (disk : Disk) (running : bool) (game : QString) :
  build_menu disk running game =
    with_wad_flags (negb running) (negb running)
      (build_menu disk running game).
Proof.
  unfold build_menu, disc_entries.
  destruct (GetPlatformID (disk game)); destruct (GetBlobType (disk game));
    reflexivity.
Qed.

Lemma emit_with_wad_flags (disk : Disk) (running : bool) (game : QString)
  (s : EmulationSignal) (install uninstall : bool) :
  emit s (with_wad_flags install uninstall (build_menu disk running game)) =
    with_wad_flags (install_after s) (uninstall_after game s)
      (build_menu disk running game).
Proof.
  unfold build_menu, disc_entries.
  destruct s as [now | now];
    destruct (GetPlatformID (disk game)); destruct (GetBlobType (disk game));
    reflexivity.
Qed.

(** After any signals the menu is the built one, up to the two flags. *)
Lemma emit_all_with_wad_flags (disk : Disk) (running : bool) (game : QString)
  (signals : list EmulationSignal) :
  forall install uninstall,
  exists install' uninstall',
    emit_all signals
      (with_wad_flags install uninstall (build_menu disk running game)) =
      with_wad_flags install' uninstall' (build_menu disk running game).
Proof.
  unfold emit_all.
  induction signals as [| s signals IH]; intros install uninstall;
    cbn [fold_left].
  - exists install, uninstall. reflexivity.
  - rewrite emit_with_wad_flags. apply IH.
Qed.

Lemma emit_all_build_menu (disk : Disk) (running : bool) (game : QString)
  (signals : list EmulationSignal) :
  exists install uninstall,
    emit_all signals (build_menu disk running game) =
      with_wad_flags install uninstall (build_menu disk running game).
Proof.
  destruct (emit_all_with_wad_flags disk running game signals
              (negb running) (negb running)) as (i & u & Hemit).
  exists i, u. rewrite <- Hemit. f_equal.
  apply build_menu_with_wad_flags.
Qed.

Lemma entry_enabled_with_wad_flags (slot : Slot) (install uninstall : bool)
  (menu : QMenu) :
  slot <> SLOT_InstallWAD -> slot <> SLOT_UninstallWAD ->
  entry_enabled slot (with_wad_flags install uninstall menu) =
    entry_enabled slot menu.
Proof.
  intros Hi Hu. induction menu as [| [a |] menu IH]; simpl.
  - reflexivity.
  - destruct (decide (triggered a = SLOT_InstallWAD)) as [Ha | Ha]; simpl.
    + rewrite Ha.
      destruct (decide (SLOT_InstallWAD = slot)); [congruence | exact IH].
    + destruct (decide (triggered a = SLOT_UninstallWAD)) as [Hb | Hb]; simpl.
      * rewrite Hb.
        destruct (decide (SLOT_UninstallWAD = slot)); [congruence | exact IH].
      * destruct (decide (triggered a = slot)); [reflexivity | exact IH].
  - exact IH.
Qed.

(** X10: every entry other than Install and Uninstall is enabled when the
    menu is built, whether or not emulation runs, and no sequence of
    emulation signals disables it. *)
Theorem other_entries_stay_enabled
  (disk : Disk) (running : bool) (game : QString)
  (signals : list EmulationSignal) (slot : Slot) :
  slot <> SLOT_InstallWAD -> slot <> SLOT_UninstallWAD ->
  entry_enabled slot (emit_all signals (build_menu disk running game))
    = entry_enabled slot (build_menu disk running game) /\
  entry_enabled slot (build_menu disk running game) <> Some false.
Proof.
  intros Hi Hu. split.
  - destruct (emit_all_build_menu disk running game signals)
      as (i & u & ->).
    apply entry_enabled_with_wad_flags; assumption.
  - unfold build_menu, disc_entries.
    destruct (GetPlatformID (disk game)); destruct (GetBlobType (disk game));
      destruct slot; try contradiction; cbn; discriminate.
Qed.

Lemma other_entries_stay_enabled_witness :
  SLOT_DeleteFile <> SLOT_InstallWAD /\
  SLOT_DeleteFile <> SLOT_UninstallWAD /\
  entry_enabled SLOT_DeleteFile
    (emit_all [EmulationStarted Shelf.disk]
       (build_menu Shelf.disk false Shelf.channel_wad))
    = entry_enabled SLOT_DeleteFile
        (build_menu Shelf.disk false Shelf.channel_wad) /\
  entry_enabled SLOT_DeleteFile
    (build_menu Shelf.disk false Shelf.channel_wad) <> Some false.
Proof.
  split; [discriminate |]. split; [discriminate |].
  apply (other_entries_stay_enabled Shelf.disk false Shelf.channel_wad
           [EmulationStarted Shelf.disk] SLOT_DeleteFile); discriminate.
Defined.

(** X11: after any sequence of emulation signals the two package entries
    follow the last signal alone: both disabled after a start; after a stop
    Install enabled and Uninstall enabled exactly when the package is
    installed at that moment. *)
Theorem wad_entries_follow_last_signal
  (disk : Disk) (running : bool) (game : QString)
  (signals : list EmulationSignal) (last : EmulationSignal) :
  GetPlatformID (disk game) = WII_WAD ->
  let menu :=
    emit_all (signals ++ [last]) (build_menu disk running game) in
  entry_enabled SLOT_InstallWAD menu = Some (install_after last) /\
  entry_enabled SLOT_UninstallWAD menu = Some (uninstall_after game last).
Proof.
  intros Hwad. cbv zeta. unfold emit_all. rewrite fold_left_app.
  cbn [fold_left].
  fold (emit_all signals (build_menu disk running game)).
  destruct (emit_all_build_menu disk running game signals) as (i & u & ->).
  rewrite emit_with_wad_flags.
  rewrite (wad_menu_shape disk running game Hwad).
  split; reflexivity.
Qed.

Lemma wad_entries_follow_last_signal_witness :
  GetPlatformID (Shelf.disk Shelf.channel_wad) = WII_WAD /\
  entry_enabled SLOT_InstallWAD
    (emit_all ([EmulationStarted Shelf.disk]
               ++ [EmulationStopped Desk.disk_installed])
       (build_menu Shelf.disk false Shelf.channel_wad))
    = Some (install_after (EmulationStopped Desk.disk_installed)) /\
  entry_enabled SLOT_UninstallWAD
    (emit_all ([EmulationStarted Shelf.disk]
               ++ [EmulationStopped Desk.disk_installed])
       (build_menu Shelf.disk false Shelf.channel_wad))
    = Some (uninstall_after Shelf.channel_wad
              (EmulationStopped Desk.disk_installed)).
Proof.
  split; [reflexivity |].
  apply (wad_entries_follow_last_signal Shelf.disk false Shelf.channel_wad
           [EmulationStarted Shelf.disk]
           (EmulationStopped Desk.disk_installed)).
  reflexivity.
Defined.


(** ** More on compressing and decompressing *)

Section CompressISO_more.

Variable DecompressBlobToFile :
  QString -> QString -> CompressCB_t -> VoidPtr -> Heap ->
  option (bool * Heap).
Variable CompressFileToBlob :
  QString -> QString -> Z -> Z -> CompressCB_t -> VoidPtr -> Heap ->
  option (bool * Heap).

(** X12: the Wii warning is part of a run exactly when the image is a Wii
    disc whose blob type is not GCZ; a GameCube image or a GCZ image is
    never warned about. *)
Theorem CompressISO_warns_wii_only
  (w : GameList) (disk : Disk) (user : CompressISO_answers)
  (game : QString) (trace : list Effect) :
  GetSelectedGame w = Some game ->
  CompressISO DecompressBlobToFile CompressFileToBlob w disk user
    = Some trace ->
  (In (QMessageBox_exec wii_warning) trace <->
   GetBlobType (disk game) <> GCZ /\ GetPlatformID (disk game) = WII_DISC).
Proof.
  intros Hsel Hrun. unfold CompressISO in Hrun.
  rewrite Hsel in Hrun. cbn [mbind option_bind] in Hrun.
  destruct (decide (GetBlobType (disk game) = GCZ)) as [Hgcz | Hgcz];
    [rewrite (bool_decide_eq_true_2 _ Hgcz) in Hrun
    | rewrite (bool_decide_eq_false_2 _ Hgcz) in Hrun];
    (destruct (decide (GetPlatformID (disk game) = WII_DISC)) as [Hwii | Hwii];
     [rewrite (bool_decide_eq_true_2 _ Hwii) in Hrun
     | rewrite (bool_decide_eq_false_2 _ Hwii) in Hrun]);
    cbn [negb andb] in Hrun;
    try destruct (bool_decide (wii_warning_exec user = No));
    cbn [andb] in Hrun;
    try destruct (isEmpty (getSaveFileName user));
    try (match type of Hrun with
         | context [DecompressBlobToFile ?a ?b ?c ?d ?e] =>
             destruct (DecompressBlobToFile a b c d e) as [[good h] |]
         | context [CompressFileToBlob ?a ?b ?s ?k ?c ?d ?e] =>
             destruct (CompressFileToBlob a b s k c d e) as [[good h] |]
         end);
    cbn [mbind option_bind fst app] in Hrun;
    try discriminate Hrun;
    injection Hrun as <-;
    (split;
     [ intros Hin; simpl in Hin;
       repeat (destruct Hin as [Hin | Hin];
               [try discriminate Hin;
                try (destruct good; discriminate Hin) |]);
       try contradiction; split; assumption
     | intros [Hb Hp]; try contradiction; simpl; auto ]).
Qed.

(** X13: a run makes at most one codec call, and the call is fixed by the
    file: a GCZ image is decompressed, any other image is compressed with
    block size 16384 and sub-type 1 for a Wii disc, 0 otherwise; source and
    destination are the selected path and the path from the prompt. *)
Theorem CompressISO_codec_call
  (w : GameList) (disk : Disk) (user : CompressISO_answers)
  (game : QString) (trace : list Effect) :
  GetSelectedGame w = Some game ->
  CompressISO DecompressBlobToFile CompressFileToBlob w disk user
    = Some trace ->
  codec_calls trace = [] \/
  codec_calls trace =
    [if bool_decide (GetBlobType (disk game) = GCZ)
     then DiscIO_DecompressBlobToFile game (getSaveFileName user)
     else DiscIO_CompressFileToBlob game (getSaveFileName user)
            (if bool_decide (GetPlatformID (disk game) = WII_DISC)
             then 1 else 0) 16384].
Proof.
  intros Hsel Hrun. unfold CompressISO in Hrun.
  rewrite Hsel in Hrun. cbn [mbind option_bind] in Hrun.
  destruct (bool_decide (GetBlobType (disk game) = GCZ));
    destruct (bool_decide (GetPlatformID (disk game) = WII_DISC));
    cbn [negb andb] in Hrun;
    try destruct (bool_decide (wii_warning_exec user = No));
    cbn [andb] in Hrun;
    try destruct (isEmpty (getSaveFileName user));
    try (match type of Hrun with
         | context [DecompressBlobToFile ?a ?b ?c ?d ?e] =>
             destruct (DecompressBlobToFile a b c d e) as [[good h] |]
         | context [CompressFileToBlob ?a ?b ?s ?k ?c ?d ?e] =>
             destruct (CompressFileToBlob a b s k c d e) as [[good h] |]
         end);
    cbn [mbind option_bind fst app] in Hrun;
    try discriminate Hrun;
    injection Hrun as <-;
    try (left; reflexivity);
    right; destruct good; reflexivity.
Qed.

(** X14: when the Wii warning is answered No, the run is the warning and
    nothing else: no file prompt, no codec call, no result dialog. *)
Theorem CompressISO_declined
  (w : GameList) (disk : Disk) (user : CompressISO_answers)
  (game : QString) :
  GetSelectedGame w = Some game ->
  declined (disk game) user = true ->
  CompressISO DecompressBlobToFile CompressFileToBlob w disk user
    = Some [QMessageBox_exec wii_warning].
Proof.
  intros Hsel Hdeclined. unfold CompressISO, declined in *.
  rewrite Hsel. cbn [mbind option_bind].
  apply andb_true_iff in Hdeclined as [Hwarned Hno].
  rewrite Hwarned, Hno. reflexivity.
Qed.

End CompressISO_more.

Lemma CompressISO_warns_wii_only_witness :
  GetSelectedGame Shelf.on_kart_iso = Some Shelf.kart_iso /\
  CompressISO (Shelf.silent_DecompressBlobToFile true)
    (Shelf.silent_CompressFileToBlob false) Shelf.on_kart_iso Shelf.disk
    Shelf.to_out =
    Some [QMessageBox_exec wii_warning;
          QFileDialog_getSaveFileName
            "Select where you want to save the compressed image"
            Shelf.kart_iso "RMCE01.gcz"
            ("Compressed GC/Wii images (" +:+ "*.gcz)");
          DiscIO_CompressFileToBlob Shelf.kart_iso "/out/image" 1 16384;
          failure_dialog] /\
  (In (QMessageBox_exec wii_warning)
     [QMessageBox_exec wii_warning;
      QFileDialog_getSaveFileName
        "Select where you want to save the compressed image"
        Shelf.kart_iso "RMCE01.gcz"
        ("Compressed GC/Wii images (" +:+ "*.gcz)");
      DiscIO_CompressFileToBlob Shelf.kart_iso "/out/image" 1 16384;
      failure_dialog] <->
   GetBlobType (Shelf.disk Shelf.kart_iso) <> GCZ /\
   GetPlatformID (Shelf.disk Shelf.kart_iso) = WII_DISC).
Proof.
  split; [reflexivity |]. split; [reflexivity |].
  apply (CompressISO_warns_wii_only
           (Shelf.silent_DecompressBlobToFile true)
           (Shelf.silent_CompressFileToBlob false)
           Shelf.on_kart_iso Shelf.disk Shelf.to_out Shelf.kart_iso);
    reflexivity.
Defined.

Lemma CompressISO_codec_call_witness :
  GetSelectedGame Shelf.on_melee_gcz = Some Shelf.melee_gcz /\
  CompressISO (Shelf.silent_DecompressBlobToFile true)
    (Shelf.silent_CompressFileToBlob false) Shelf.on_melee_gcz Shelf.disk
    Shelf.to_out =
    Some [QFileDialog_getSaveFileName
            "Select where you want to save the decompressed image"
            Shelf.melee_gcz "GALE01.gcm"
            ("Uncompressed GC/Wii images (" +:+ "*.iso *.gcm");
          DiscIO_DecompressBlobToFile Shelf.melee_gcz "/out/image";
          success_dialog] /\
  (codec_calls
     [QFileDialog_getSaveFileName
        "Select where you want to save the decompressed image"
        Shelf.melee_gcz "GALE01.gcm"
        ("Uncompressed GC/Wii images (" +:+ "*.iso *.gcm");
      DiscIO_DecompressBlobToFile Shelf.melee_gcz "/out/image";
      success_dialog] = [] \/
   codec_calls
     [QFileDialog_getSaveFileName
        "Select where you want to save the decompressed image"
        Shelf.melee_gcz "GALE01.gcm"
        ("Uncompressed GC/Wii images (" +:+ "*.iso *.gcm");
      DiscIO_DecompressBlobToFile Shelf.melee_gcz "/out/image";
      success_dialog] =
     [if bool_decide (GetBlobType (Shelf.disk Shelf.melee_gcz) = GCZ)
      then DiscIO_DecompressBlobToFile Shelf.melee_gcz
             (getSaveFileName Shelf.to_out)
      else DiscIO_CompressFileToBlob Shelf.melee_gcz
             (getSaveFileName Shelf.to_out)
             (if bool_decide
                   (GetPlatformID (Shelf.disk Shelf.melee_gcz) = WII_DISC)
              then 1 else 0) 16384]).
Proof.
  split; [reflexivity |]. split; [reflexivity |].
  apply (CompressISO_codec_call
           (Shelf.silent_DecompressBlobToFile true)
           (Shelf.silent_CompressFileToBlob false)
           Shelf.on_melee_gcz Shelf.disk Shelf.to_out Shelf.melee_gcz);
    reflexivity.
Defined.

Lemma CompressISO_declined_witness :
  GetSelectedGame Shelf.on_kart_iso = Some Shelf.kart_iso /\
  declined (Shelf.disk Shelf.kart_iso)
    {| wii_warning_exec := No; getSaveFileName := "/out/image" |} = true /\
  CompressISO (Shelf.silent_DecompressBlobToFile true)
    (Shelf.silent_CompressFileToBlob true) Shelf.on_kart_iso Shelf.disk
    {| wii_warning_exec := No; getSaveFileName := "/out/image" |}
  = Some [QMessageBox_exec wii_warning].
Proof.
  split; [reflexivity |]. split; [reflexivity |].
  apply (CompressISO_declined
           (Shelf.silent_DecompressBlobToFile true)
           (Shelf.silent_CompressFileToBlob true)
           Shelf.on_kart_iso Shelf.disk
           {| wii_warning_exec := No; getSaveFileName := "/out/image" |}
           Shelf.kart_iso);
    reflexivity.
Defined.


(** ** More on the callback *)



(** ** Installing, uninstalling and exporting *)

(** X16: [InstallWAD], [ExportWiiSave] and an [UninstallWAD] that is not
    answered No each make exactly one call, on the selected game, and end
    with exactly one message box, whose icon is Information when the call
    succeeded and Critical when it failed; an [UninstallWAD] answered No
    shows its warning and makes no call. *)
Theorem one_call_one_result
  (w : GameList) (game : QString) (success : bool)
  (answer : StandardButton) :
  GetSelectedGame w = Some game ->
  answer <> No ->
  let verdict := if success then Information else Critical in
  (exists box,
     InstallWAD w success =
       Some [Calls (GameFile_Install game); Shows (QMessageBox_exec box)] /\
     icon box = verdict) /\
  (exists box,
     ExportWiiSave w success =
       Some [Calls (GameFile_ExportWiiSave game);
             Shows (QMessageBox_exec box)] /\
     icon box = verdict) /\
  (exists box,
     UninstallWAD w answer success =
       Some [Shows (QMessageBox_exec warning_dialog);
             Calls (GameFile_Uninstall game);
             Shows (QMessageBox_exec box)] /\
     icon box = verdict) /\
  UninstallWAD w No success = Some [Shows (QMessageBox_exec warning_dialog)].
Proof.
  intros Hsel Hanswer. cbv zeta.
  unfold InstallWAD, ExportWiiSave, UninstallWAD. rewrite Hsel.
  destruct (decide (answer = No)) as [Hno | _]; [contradiction |].
  repeat split; eexists; split; reflexivity.
Qed.

Lemma one_call_one_result_witness :
  GetSelectedGame Shelf.on_channel_wad = Some Shelf.channel_wad /\
  Yes <> No /\
  (exists box,
     InstallWAD Shelf.on_channel_wad false =
       Some [Calls (GameFile_Install Shelf.channel_wad);
             Shows (QMessageBox_exec box)] /\
     icon box = Critical) /\
  (exists box,
     ExportWiiSave Shelf.on_channel_wad false =
       Some [Calls (GameFile_ExportWiiSave Shelf.channel_wad);
             Shows (QMessageBox_exec box)] /\
     icon box = Critical) /\
  (exists box,
     UninstallWAD Shelf.on_channel_wad Yes false =
       Some [Shows (QMessageBox_exec warning_dialog);
             Calls (GameFile_Uninstall Shelf.channel_wad);
             Shows (QMessageBox_exec box)] /\
     icon box = Critical) /\
  UninstallWAD Shelf.on_channel_wad No false =
    Some [Shows (QMessageBox_exec warning_dialog)].
Proof.
  split; [reflexivity |]. split; [discriminate |].
  apply (one_call_one_result Shelf.on_channel_wad Shelf.channel_wad false Yes).
  - reflexivity.
  - discriminate.
Defined.

(** ** The default disc *)

(** X17: in a state the widget keeps itself in, [SetDefaultISO] stores the
    path of a game of the catalog, or the empty path when nothing is
    selected in the view it reads, and changes no other setting. *)
Theorem SetDefaultISO_stores_catalog_path (w : GameList) (config : SConfig) :
  GameList_ok w ->
  exists config',
    SetDefaultISO w config = Some config' /\
    (current_selection w = [] -> m_strDefaultISO config' = EmptyString) /\
    (current_selection w <> [] ->
     In (m_strDefaultISO config') (m_games (m_model w))) /\
    show_flags config' = show_flags config.
Proof.
  intros Hok. unfold SetDefaultISO, GetSelectedGame, current_selection.
  destruct (decide (currentWidget w = m_table)) as [Htable | Hother].
  - destruct (table_selection w) as [| first rest] eqn:Hsel.
    + eexists. split; [reflexivity |]. split; [reflexivity |].
      split; [intros Hne; contradiction | reflexivity].
    + destruct (resolve_through_proxy (m_model w) (m_table_proxy w) first rest)
        as (r & path & _ & Hpath & Hget).
      * exact (table_proxy_ok w Hok).
      * rewrite <- Hsel. exact (table_selection_ok w Hok).
      * rewrite Hget. eexists. split; [reflexivity |].
        split; [discriminate |].
        split; [intros _; exact (at_index_In _ _ _ Hpath) | reflexivity].
  - destruct (list_selection w) as [| first rest] eqn:Hsel.
    + eexists. split; [reflexivity |]. split; [reflexivity |].
      split; [intros Hne; contradiction | reflexivity].
    + destruct (resolve_through_proxy (m_model w) (m_list_proxy w) first rest)
        as (r & path & _ & Hpath & Hget).
      * exact (list_proxy_ok w Hok).
      * rewrite <- Hsel. exact (list_selection_ok w Hok).
      * rewrite Hget. eexists. split; [reflexivity |].
        split; [discriminate |].
        split; [intros _; exact (at_index_In _ _ _ Hpath) | reflexivity].
Qed.

Lemma SetDefaultISO_stores_catalog_path_witness :
  GameList_ok Shelf.on_kart_iso /\
  exists config',
    SetDefaultISO Shelf.on_kart_iso Desk.config = Some config' /\
    (current_selection Shelf.on_kart_iso = [] ->
     m_strDefaultISO config' = EmptyString) /\
    (current_selection Shelf.on_kart_iso <> [] ->
     In (m_strDefaultISO config') (m_games (m_model Shelf.on_kart_iso))) /\
    show_flags config' = show_flags Desk.config.
Proof.
  assert (Hok : GameList_ok Shelf.on_kart_iso).
  { apply Shelf_with_table_row_ok. lia. }
  split; [exact Hok |].
  exact (SetDefaultISO_stores_catalog_path Shelf.on_kart_iso Desk.config Hok).
Defined.


(** ** More on removing a file *)

(** X18: unless the confirmation is answered Yes, [DeleteFile] shows the
    confirmation and nothing else: the file is not deleted and the widget
    stays as it was, whatever the filesystem would have done. *)
Theorem DeleteFile_not_confirmed
  (w : GameList) (game : QString) (answer : StandardButton)
  (attempts : Deletion) :
  GetSelectedGame w = Some game ->
  answer <> Yes ->
  DeleteFile w answer attempts = Some (w, [QMessageBox_exec confirm_dialog]).
Proof.
  intros Hsel Hanswer. unfold DeleteFile. rewrite Hsel. simpl.
  destruct (decide (answer = Yes)); [contradiction | reflexivity].
Qed.

Lemma DeleteFile_not_confirmed_witness :
  GetSelectedGame Shelf.on_kart_iso = Some Shelf.kart_iso /\
  Cancel <> Yes /\
  DeleteFile Shelf.on_kart_iso Cancel (Delete_fails Retry Delete_succeeds)
    = Some (Shelf.on_kart_iso, [QMessageBox_exec confirm_dialog]).
Proof.
  split; [reflexivity |]. split; [discriminate |].
  apply (DeleteFile_not_confirmed Shelf.on_kart_iso Shelf.kart_iso Cancel
           (Delete_fails Retry Delete_succeeds)).
  - reflexivity.
  - discriminate.
Defined.

Lemma delete_loop_shape (game : QString) (attempts : Deletion) (w : GameList) :
  exists n,
    delete_loop game attempts w =
      (RemoveGame game w, failed_attempts game n ++ [File_Delete game]) \/
    delete_loop game attempts w = (w, failed_attempts game (S n)).
Proof.
  induction attempts as [| answer next IH].
  - exists O. left. reflexivity.
  - simpl. destruct (decide (answer = Abort)) as [Habort | Hgo].
    + exists O. right. reflexivity.
    + destruct IH as [k [IH | IH]]; exists (S k); rewrite IH;
        [left | right]; reflexivity.
Qed.

(** X19: whatever the error dialog answers, a confirmed [DeleteFile] is a
    run of delete calls each followed by the error dialog, ended either by
    one more delete call, after which the game is taken out of the catalog,
    or by the last error dialog, with the widget as it was: the catalog is
    touched only after a delete call that is not followed by an error
    dialog. *)
Theorem DeleteFile_trace_shape
  (w : GameList) (game : QString) (attempts : Deletion) :
  GetSelectedGame w = Some game ->
  exists n,
    DeleteFile w Yes attempts =
      Some (RemoveGame game w,
            QMessageBox_exec confirm_dialog
            :: failed_attempts game n ++ [File_Delete game]) \/
    DeleteFile w Yes attempts =
      Some (w, QMessageBox_exec confirm_dialog
               :: failed_attempts game (S n)).
Proof.
  intros Hsel. unfold DeleteFile. rewrite Hsel. simpl.
  destruct (delete_loop_shape game attempts w) as [n [Hloop | Hloop]];
    exists n; rewrite Hloop; [left | right]; reflexivity.
Qed.

Lemma DeleteFile_trace_shape_witness :
  GetSelectedGame Shelf.on_kart_iso = Some Shelf.kart_iso /\
  exists n,
    DeleteFile Shelf.on_kart_iso Yes
      (Delete_fails Ignore (Delete_fails Abort Delete_succeeds)) =
      Some (RemoveGame Shelf.kart_iso Shelf.on_kart_iso,
            QMessageBox_exec confirm_dialog
            :: failed_attempts Shelf.kart_iso n
               ++ [File_Delete Shelf.kart_iso]) \/
    DeleteFile Shelf.on_kart_iso Yes
      (Delete_fails Ignore (Delete_fails Abort Delete_succeeds)) =
      Some (Shelf.on_kart_iso,
            QMessageBox_exec confirm_dialog
            :: failed_attempts Shelf.kart_iso (S n)).
Proof.
  split; [reflexivity |].
  apply (DeleteFile_trace_shape Shelf.on_kart_iso Shelf.kart_iso
           (Delete_fails Ignore (Delete_fails Abort Delete_succeeds))).
  reflexivity.
Defined.

Lemma rowCount_RemoveGame (path : QString) (w : GameList) :
  In path (m_games (m_model w)) ->
  rowCount (m_model (RemoveGame path w)) = rowCount (m_model w) - 1.
Proof.
  intros Hin.
  destruct (RemoveGame_takes_one path w Hin) as (above & below & Hg & _ & Hg').
  unfold rowCount. rewrite Hg, Hg', !length_app. simpl. lia.
Qed.

Lemma active_view_RemoveGame (path : QString) (w : GameList) :
  In path (m_games (m_model w)) ->
  active_view (RemoveGame path w) =
    chooseView (rowCount (m_model (RemoveGame path w))) (m_prefer_table w).
Proof.
  intros Hin.
  destruct (FindGame_splits path _ Hin) as (above & below & _ & _ & Hfind).
  unfold RemoveGame. rewrite Hfind.
  unfold active_view. rewrite currentWidget_ConsiderViewChange.
  destruct (ConsiderViewChange_fields
              {| m_model :=
                   {| m_games := delete (length above) (m_games (m_model w)) |};
                 m_table_proxy :=
                   proxy_rowsRemoved (Z.of_nat (length above)) (m_table_proxy w);
                 m_list_proxy :=
                   proxy_rowsRemoved (Z.of_nat (length above)) (m_list_proxy w);
                 table_selection :=
                   selection_rowsRemoved (Z.of_nat (length above))
                     (m_table_proxy w) (table_selection w);
                 list_selection :=
                   selection_rowsRemoved (Z.of_nat (length above))
                     (m_list_proxy w) (list_selection w);
                 m_prefer_table := m_prefer_table w;
                 currentWidget := currentWidget w |}) as (Hm & _).
  cbv zeta. rewrite Hm. simpl m_model. simpl m_prefer_table.
  apply page_of_count, rowCount_nonneg.
Qed.

(** X20: when a confirmed delete succeeds, after any number of retries,
    the catalog has one row less and the page shown is the one the policy
    gives for the new row count: deleting the only game brings up the
    empty page. *)
Theorem DeleteFile_success_updates_view
  (w : GameList) (game : QString) (n : nat) :
  selects w game ->
  exists w' trace,
    DeleteFile w Yes (retrying n Delete_succeeds) = Some (w', trace) /\
    rowCount (m_model w') = rowCount (m_model w) - 1 /\
    active_view w' =
      chooseView (rowCount (m_model w')) (m_prefer_table w) /\
    (rowCount (m_model w) = 1 -> active_view w' = Empty).
Proof.
  intros Hsel. pose proof (selects_In w game Hsel) as Hin.
  destruct Hsel as [Hsel _].
  exists (RemoveGame game w). eexists.
  split.
  { unfold DeleteFile. rewrite Hsel. simpl.
    rewrite delete_loop_succeeded. reflexivity. }
  pose proof (rowCount_RemoveGame game w Hin) as Hrows.
  pose proof (active_view_RemoveGame game w Hin) as Hview.
  split; [exact Hrows |]. split; [exact Hview |].
  intros Hone. rewrite Hview, Hrows, Hone. reflexivity.
Qed.

Lemma DeleteFile_success_updates_view_witness :
  selects Desk.last_game Shelf.kart_iso /\
  exists w' trace,
    DeleteFile Desk.last_game Yes (retrying 1 Delete_succeeds)
      = Some (w', trace) /\
    rowCount (m_model w') = rowCount (m_model Desk.last_game) - 1 /\
    active_view w' =
      chooseView (rowCount (m_model w')) (m_prefer_table Desk.last_game) /\
    (rowCount (m_model Desk.last_game) = 1 -> active_view w' = Empty).
Proof.
  split; [split; reflexivity |].
  apply (DeleteFile_success_updates_view Desk.last_game Shelf.kart_iso 1).
  split; reflexivity.
Defined.

Lemma GetSelectedGame_defined (w : GameList) :
  GameList_ok w -> exists path, GetSelectedGame w = Some path.
Proof.
  intros Hok. unfold GetSelectedGame.
  destruct (decide (currentWidget w = m_table)).
  - destruct (table_selection w) as [| first rest] eqn:Hsel; [eauto |].
    destruct (resolve_through_proxy (m_model w) (m_table_proxy w) first rest)
      as (r & path & _ & _ & Hget); [| | eauto].
    + exact (table_proxy_ok w Hok).
    + rewrite <- Hsel. exact (table_selection_ok w Hok).
  - destruct (list_selection w) as [| first rest] eqn:Hsel; [eauto |].
    destruct (resolve_through_proxy (m_model w) (m_list_proxy w) first rest)
      as (r & path & _ & _ & Hget); [| | eauto].
    + exact (list_proxy_ok w Hok).
    + rewrite <- Hsel. exact (list_selection_ok w Hok).
Qed.

(** ** The columns of the table *)

Lemma isColumnHidden_setColumnHidden (column other : Z) (hide : bool)
  (table : HiddenColumns) :
  isColumnHidden other (setColumnHidden column hide table) =
    if decide (column = other) then hide else isColumnHidden other table.
Proof.
  unfold isColumnHidden, setColumnHidden. rewrite lookup_insert.
  destruct (decide (column = other)); reflexivity.
Qed.

(** X22: toggling a column by one of the nine names of the map sets the
    hidden flag of the column of that name to the opposite of [visible]
    and leaves every other column as it was; Quality names the rating
    column and Country the country column. *)
Theorem OnColumnVisibilityToggled_known
  (c : Columns) (name : QString) (column : Z) (visible : bool)
  (table : HiddenColumns) :
  In (name, column)
    [("Banner", COL_BANNER c); ("Country", COL_COUNTRY c);
     ("Description", COL_DESCRIPTION c); ("ID", COL_ID c);
     ("Maker", COL_MAKER c); ("Platform", COL_PLATFORM c);
     ("Size", COL_SIZE c); ("Title", COL_TITLE c);
     ("Quality", COL_RATING c)] ->
  let table' := OnColumnVisibilityToggled c name visible table in
  isColumnHidden column table' = negb visible /\
  forall other, other <> column ->
    isColumnHidden other table' = isColumnHidden other table.
Proof.
  intros Hin. cbv zeta.
  assert (Hat : QMap_at (rowname_to_col_index c) name = column).
  { simpl in Hin.
    repeat (destruct Hin as [Hin | Hin];
            [injection Hin as <- <-; reflexivity |]).
    contradiction. }
  unfold OnColumnVisibilityToggled. rewrite Hat. split.
  - rewrite isColumnHidden_setColumnHidden.
    destruct (decide (column = column)); [reflexivity | contradiction].
  - intros other Hother. rewrite isColumnHidden_setColumnHidden.
    destruct (decide (column = other)); [congruence | reflexivity].
Qed.

Lemma OnColumnVisibilityToggled_known_witness :
  In ("Quality", 8)
    [("Banner", COL_BANNER Desk.columns); ("Country", COL_COUNTRY Desk.columns);
     ("Description", COL_DESCRIPTION Desk.columns); ("ID", COL_ID Desk.columns);
     ("Maker", COL_MAKER Desk.columns); ("Platform", COL_PLATFORM Desk.columns);
     ("Size", COL_SIZE Desk.columns); ("Title", COL_TITLE Desk.columns);
     ("Quality", COL_RATING Desk.columns)] /\
  isColumnHidden 8
    (OnColumnVisibilityToggled Desk.columns "Quality" false
       (MakeTableView Desk.columns Desk.config)) = negb false /\
  forall other, other <> 8 ->
    isColumnHidden other
      (OnColumnVisibilityToggled Desk.columns "Quality" false
         (MakeTableView Desk.columns Desk.config))
    = isColumnHidden other (MakeTableView Desk.columns Desk.config).
Proof.
  assert (Hin :
            In ("Quality", 8)
              [("Banner", COL_BANNER Desk.columns);
               ("Country", COL_COUNTRY Desk.columns);
               ("Description", COL_DESCRIPTION Desk.columns);
               ("ID", COL_ID Desk.columns);
               ("Maker", COL_MAKER Desk.columns);
               ("Platform", COL_PLATFORM Desk.columns);
               ("Size", COL_SIZE Desk.columns);
               ("Title", COL_TITLE Desk.columns);
               ("Quality", COL_RATING Desk.columns)]).
  { simpl. tauto. }
  split; [exact Hin |].
  exact (OnColumnVisibilityToggled_known Desk.columns "Quality" 8 false
           (MakeTableView Desk.columns Desk.config) Hin).
Defined.

(** X23: toggling by a name the map does not have acts on column 0, the
    default the map answers for a missing key: that column is hidden or
    shown, and no other. *)
Theorem OnColumnVisibilityToggled_unknown
  (c : Columns) (row : QString) (visible : bool) (table : HiddenColumns) :
  ~ In row column_names ->
  let table' := OnColumnVisibilityToggled c row visible table in
  isColumnHidden 0 table' = negb visible /\
  forall other, other <> 0 ->
    isColumnHidden other table' = isColumnHidden other table.
Proof.
  intros Hunknown. cbv zeta.
  assert (Hat : QMap_at (rowname_to_col_index c) row = 0).
  { unfold QMap_at, rowname_to_col_index.
    rewrite (not_elem_of_list_to_map_1 _ row); [reflexivity |].
    intros Hin. apply Hunknown. apply list_elem_of_In. exact Hin. }
  unfold OnColumnVisibilityToggled. rewrite Hat. split.
  - rewrite isColumnHidden_setColumnHidden. reflexivity.
  - intros other Hother. rewrite isColumnHidden_setColumnHidden.
    destruct (decide (0 = other)); [congruence | reflexivity].
Qed.

Lemma OnColumnVisibilityToggled_unknown_witness :
  ~ In "Region" column_names /\
  isColumnHidden 0
    (OnColumnVisibilityToggled Desk.columns "Region" false
       (MakeTableView Desk.columns Desk.config)) = negb false /\
  forall other, other <> 0 ->
    isColumnHidden other
      (OnColumnVisibilityToggled Desk.columns "Region" false
         (MakeTableView Desk.columns Desk.config))
    = isColumnHidden other (MakeTableView Desk.columns Desk.config).
Proof.
  assert (Hunknown : ~ In "Region" column_names).
  { simpl. intros H.
    repeat (destruct H as [H | H]; [discriminate H |]). exact H. }
  split; [exact Hunknown |].
  exact (OnColumnVisibilityToggled_unknown Desk.columns "Region" false
           (MakeTableView Desk.columns Desk.config) Hunknown).
Defined.

(** X24: when the nine column numbers are distinct, [MakeTableView] hides
    each of the nine columns exactly when its show flag is off, and hides
    no other column. *)
Theorem MakeTableView_hides_unflagged (c : Columns) (config : SConfig) :
  NoDup (column_numbers c) ->
  Forall2
    (fun column show =>
       isColumnHidden column (MakeTableView c config) = negb show)
    (column_numbers c) (show_flags config) /\
  forall other, ~ In other (column_numbers c) ->
    isColumnHidden other (MakeTableView c config) = false.
Proof.
  intros Hdistinct. unfold column_numbers in *.
  repeat (apply NoDup_cons in Hdistinct as [?Hnot Hdistinct]).
  repeat match goal with
         | H : _ ∉ _ :: _ |- _ => apply not_elem_of_cons in H as [? H]
         end.
  unfold MakeTableView, show_flags. cbv zeta. split.
  - repeat constructor;
      rewrite !isColumnHidden_setColumnHidden;
      repeat (destruct (decide _); try congruence).
  - intros other Hother. simpl in Hother.
    rewrite !isColumnHidden_setColumnHidden.
    repeat (destruct (decide _); try (exfalso; tauto)).
    reflexivity.
Qed.

Lemma MakeTableView_hides_unflagged_witness :
  NoDup (column_numbers Desk.columns) /\
  Forall2
    (fun column show =>
       isColumnHidden column (MakeTableView Desk.columns Desk.config)
       = negb show)
    (column_numbers Desk.columns) (show_flags Desk.config) /\
  forall other, ~ In other (column_numbers Desk.columns) ->
    isColumnHidden other (MakeTableView Desk.columns Desk.config) = false.
Proof.
  assert (Hdistinct : NoDup (column_numbers Desk.columns)).
  { apply (bool_decide_unpack (NoDup (column_numbers Desk.columns))).
    vm_compute. exact I. }
  split; [exact Hdistinct |].
  exact (MakeTableView_hides_unflagged Desk.columns Desk.config Hdistinct).
Defined.

(** ** The wiki page *)

Lemma append_inj_r (prefix a b : string) :
  prefix +:+ a = prefix +:+ b -> a = b.
Proof.
  induction prefix as [| ch prefix IH]; simpl; intros H.
  - exact H.
  - injection H as H. exact (IH H).
Qed.

(** X25: [OpenWiki] opens one URL, the wiki address followed by the game
    id of the selected game, so that two selected games are sent to the
    same page only when they have the same game id. *)
Theorem OpenWiki_by_game_id
  (w1 w2 : GameList) (disk : Disk) (game1 game2 : QString) :
  GetSelectedGame w1 = Some game1 ->
  GetSelectedGame w2 = Some game2 ->
  OpenWiki w1 disk =
    Some [Calls (QDesktopServices_openUrl
                   (wiki_base +:+ GetGameID (disk game1)))] /\
  (OpenWiki w1 disk = OpenWiki w2 disk <->
   GetGameID (disk game1) = GetGameID (disk game2)).
Proof.
  intros H1 H2. unfold OpenWiki. rewrite H1, H2. simpl.
  split; [reflexivity |]. split.
  - intros H. injection H as H. exact (append_inj_r _ _ _ H).
  - intros ->. reflexivity.
Qed.

Lemma OpenWiki_by_game_id_witness :
  GetSelectedGame Shelf.on_kart_iso = Some Shelf.kart_iso /\
  GetSelectedGame Shelf.on_melee_gcz = Some Shelf.melee_gcz /\
  OpenWiki Shelf.on_kart_iso Shelf.disk =
    Some [Calls (QDesktopServices_openUrl
                   (wiki_base +:+ GetGameID (Shelf.disk Shelf.kart_iso)))] /\
  (OpenWiki Shelf.on_kart_iso Shelf.disk
     = OpenWiki Shelf.on_melee_gcz Shelf.disk <->
   GetGameID (Shelf.disk Shelf.kart_iso)
     = GetGameID (Shelf.disk Shelf.melee_gcz)).
Proof.
  split; [reflexivity |]. split; [reflexivity |].
  apply (OpenWiki_by_game_id Shelf.on_kart_iso Shelf.on_melee_gcz Shelf.disk
           Shelf.kart_iso Shelf.melee_gcz); reflexivity.
Defined.


(** ** The preference and the menu, put together *)

(** X26: after [SetPreferredView] the widget's copy of the preference and
    the stored setting are both the value given, the catalog, the proxies
    and the selections are untouched, and a widget that was in a state it
    keeps itself in is in one again. *)
Theorem SetPreferredView_in_sync
  (table : bool) (w : GameList) (s : Settings) :
  let w' := fst (SetPreferredView table w s) in
  let s' := snd (SetPreferredView table w s) in
  m_prefer_table w' = table /\
  PreferredView s' = table /\
  m_model w' = m_model w /\
  (m_table_proxy w', m_list_proxy w') = (m_table_proxy w, m_list_proxy w) /\
  (table_selection w', list_selection w')
    = (table_selection w, list_selection w) /\
  (GameList_ok w -> GameList_ok w').
Proof.
  cbv zeta. unfold SetPreferredView. simpl fst. simpl snd.
  destruct (ConsiderViewChange_fields
              {| m_model := m_model w;
                 m_table_proxy := m_table_proxy w;
                 m_list_proxy := m_list_proxy w;
                 table_selection := table_selection w;
                 list_selection := list_selection w;
                 m_prefer_table := table;
                 currentWidget := currentWidget w |})
    as (Hm & Ht & Hl & Hst & Hsl & Hp).
  simpl in Hm, Ht, Hl, Hst, Hsl, Hp.
  rewrite Hm, Ht, Hl, Hst, Hsl, Hp.
  do 5 (split; [reflexivity |]).
  intros Hok. exact (SetPreferredView_ok table w s Hok).
Qed.

Section Menu_and_slot.

Variable DecompressBlobToFile :
  QString -> QString -> CompressCB_t -> VoidPtr -> Heap ->
  option (bool * Heap).
Variable CompressFileToBlob :
  QString -> QString -> Z -> Z -> CompressCB_t -> VoidPtr -> Heap ->
  option (bool * Heap).

(** X27: when the menu built for the selected game has the Compress
    entry, a run of [CompressISO] on that game never calls the
    decompressor: every codec call in its trace is a call of
    [CompressFileToBlob] with block size 16384. *)
Theorem Compress_entry_compresses
  (w : GameList) (disk : Disk) (running : bool)
  (user : CompressISO_answers) (game : QString) (trace : list Effect) :
  GetSelectedGame w = Some game ->
  offers SLOT_CompressISO (build_menu disk running game) = true ->
  CompressISO DecompressBlobToFile CompressFileToBlob w disk user
    = Some trace ->
  Forall
    (fun call =>
       exists sub_type,
         call = DiscIO_CompressFileToBlob game (getSaveFileName user)
                  sub_type 16384)
    (codec_calls trace).
Proof.
  intros Hsel Hoffer Hrun.
  assert (Hplain : GetBlobType (disk game) = PLAIN).
  { revert Hoffer. unfold build_menu, disc_entries.
    destruct (GetPlatformID (disk game)); destruct (GetBlobType (disk game));
      vm_compute; congruence. }
  unfold CompressISO in Hrun.
  rewrite Hsel in Hrun. cbn [mbind option_bind] in Hrun.
  rewrite Hplain in Hrun.
  change (bool_decide (PLAIN = GCZ)) with false in Hrun.
  cbn [negb andb] in Hrun.
  destruct (bool_decide (GetPlatformID (disk game) = WII_DISC));
    try destruct (bool_decide (wii_warning_exec user = No));
    cbn [andb] in Hrun;
    try destruct (isEmpty (getSaveFileName user));
    try (match type of Hrun with
         | context [CompressFileToBlob ?a ?b ?s ?k ?c ?d ?e] =>
             destruct (CompressFileToBlob a b s k c d e) as [[good h] |]
         end);
    cbn [mbind option_bind fst app] in Hrun;
    try discriminate Hrun;
    injection Hrun as <-;
    try (destruct good); cbn;
    repeat constructor; eexists; reflexivity.
Qed.

End Menu_and_slot.

Lemma Compress_entry_compresses_witness :
  GetSelectedGame Shelf.on_kart_iso = Some Shelf.kart_iso /\
  offers SLOT_CompressISO (build_menu Shelf.disk false Shelf.kart_iso)
    = true /\
  CompressISO (Shelf.silent_DecompressBlobToFile true)
    (Shelf.silent_CompressFileToBlob false) Shelf.on_kart_iso Shelf.disk
    Shelf.to_out =
    Some [QMessageBox_exec wii_warning;
          QFileDialog_getSaveFileName
            "Select where you want to save the compressed image"
            Shelf.kart_iso "RMCE01.gcz"
            ("Compressed GC/Wii images (" +:+ "*.gcz)");
          DiscIO_CompressFileToBlob Shelf.kart_iso "/out/image" 1 16384;
          failure_dialog] /\
  Forall
    (fun call =>
       exists sub_type,
         call = DiscIO_CompressFileToBlob Shelf.kart_iso
                  (getSaveFileName Shelf.to_out) sub_type 16384)
    (codec_calls
       [QMessageBox_exec wii_warning;
        QFileDialog_getSaveFileName
          "Select where you want to save the compressed image"
          Shelf.kart_iso "RMCE01.gcz"
          ("Compressed GC/Wii images (" +:+ "*.gcz)");
        DiscIO_CompressFileToBlob Shelf.kart_iso "/out/image" 1 16384;
        failure_dialog]).
Proof.
  split; [reflexivity |]. split; [reflexivity |]. split; [reflexivity |].
  apply (Compress_entry_compresses
           (Shelf.silent_DecompressBlobToFile true)
           (Shelf.silent_CompressFileToBlob false)
           Shelf.on_kart_iso Shelf.disk false Shelf.to_out Shelf.kart_iso);
    reflexivity.
Defined.
